(** * A travel assistant with a file-backed preference memory

    Shallow embedding of [main.py]: the [SimpleMemory] store and its JSON
    backing file, the three tool functions handed to the agent, the dummy
    flight search, the loop of [call_agent_async] over the runner's
    events, the runner at work between them, and the loop of
    [interactive_chat] over standard input.

    Python values that come out of [json.load] are dynamically typed, so the
    store is a [json] value and every operation says which exception Python
    raises when the value has another shape than the one the program writes.
    Strings are Python [str] restricted to code points below 256. The
    messages of the memory system and of the turn on standard output are
    left out; the line [find_flights] prints is kept, being the one use of
    two of its arguments. *)

From Stdlib Require Import ZArith NArith String Ascii List Bool Lia.
From Stdlib Require Import DecimalString.
From stdpp Require Import gmap strings list fin_maps.
Import ListNotations.

Set Warnings "-register-all".
Open Scope string_scope.

(** ** Python values, exceptions and the builtins the program uses *)

Module Py.

(** What [json.load] can return. Numbers are never inspected by the
    program; a float keeps its literal. *)
Inductive json : Type :=
| JNull
| JBool (b : bool)
| JInt (n : Z)
| JFloat (lit : string)
| JStr (s : string)
| JArr (xs : list json)
| JObj (m : gmap string json).

Inductive exn : Type :=
| AttributeError
| TypeError
| KeyError
| OSError
| UnicodeDecodeError
| RecursionError
| ValueError
| EOFError.

Inductive result (A : Type) : Type :=
| Ok (a : A)
| Raise (e : exn).
Arguments Ok {A} a.
Arguments Raise {A} e.

(** [needle in haystack] on two [str]: substring test. *)
Fixpoint str_in (needle haystack : string) : bool :=
  String.prefix needle haystack
  || match haystack with
     | EmptyString => false
     | String _ rest => str_in needle rest
     end.

(** [str == x] for a JSON value [x]: only an equal [str] is equal. *)
Definition eq_str (s : string) (x : json) : bool :=
  match x with
  | JStr t => String.eqb s t
  | _ => false
  end.

(** [data in x]: list membership, substring, or dict key; the other JSON
    values are not iterable. *)
Definition contains (data : string) (x : json) : result bool :=
  match x with
  | JArr xs => Ok (existsb (eq_str data) xs)
  | JStr t => Ok (str_in data t)
  | JObj m => Ok (bool_decide (is_Some (m !! data)))
  | _ => Raise TypeError
  end.

(** [len(x)]. *)
Definition len (x : json) : result nat :=
  match x with
  | JArr xs => Ok (length xs)
  | JStr t => Ok (String.length t)
  | JObj m => Ok (size m)
  | _ => Raise TypeError
  end.

(** [d.setdefault(k, default)] on the entries of a dict: the value now
    under [k], and the entries afterwards. *)
Definition setdefault (k : string) (default : json) (m : gmap string json)
  : json * gmap string json :=
  match m !! k with
  | Some v => (v, m)
  | None => (default, <[k := default]> m)
  end.

(** [d.get(k, default)] on the entries of a dict. *)
Definition get (k : string) (default : json) (m : gmap string json) : json :=
  match m !! k with
  | Some v => v
  | None => default
  end.

(** [x[k]] with a [str] key. *)
Definition subscript (x : json) (k : string) : result json :=
  match x with
  | JObj m => match m !! k with Some v => Ok v | None => Raise KeyError end
  | _ => Raise TypeError
  end.

(** [str.lower()] on code points below 256: the ASCII capitals and the
    Latin-1 capitals (all of 0xC0..0xDE but the multiplication sign 0xD7)
    move up by 32; nothing else changes. *)
Definition lower_char (c : ascii) : ascii :=
  let n := N_of_ascii c in
  if ((65 <=? n) && (n <=? 90)
      || (192 <=? n) && (n <=? 222) && negb (n =? 215))%N
  then ascii_of_N (n + 32)
  else c.

Fixpoint lower (s : string) : string :=
  match s with
  | EmptyString => EmptyString
  | String c rest => String (lower_char c) (lower rest)
  end.

(** [str.upper()], used on catalogue names only, which are ASCII. *)
Definition upper_char (c : ascii) : ascii :=
  let n := N_of_ascii c in
  if ((97 <=? n) && (n <=? 122))%N then ascii_of_N (n - 32) else c.

Fixpoint upper (s : string) : string :=
  match s with
  | EmptyString => EmptyString
  | String c rest => String (upper_char c) (upper rest)
  end.

(** [str(n)] for a natural number. *)
Definition dec (n : N) : string := NilEmpty.string_of_uint (N.to_uint n).

End Py.
Import Py.

(** ** The disk

    The backing file is kept as what [open] and [json.load] make of it:
    the value decoded, or the reason why there is none. [json.dump]
    followed by [json.load] gives the value back; a write that breaks off
    leaves text that is no JSON document. *)

Inductive document : Type :=
| Unreadable               (* no read access, or a directory: [open] raises [OSError] *)
| NotText                  (* bytes that do not decode: [UnicodeDecodeError] *)
| Malformed                (* text that is not JSON: [json.JSONDecodeError] *)
| TooDeep                  (* JSON nested beyond the recursion limit: [RecursionError] *)
| HugeInt                  (* JSON with an integer of too many digits: [ValueError] *)
| Wellformed (v : json).   (* text that is a JSON document for [v] *)

(** How an [open(path, "w")] followed by a dump can go wrong. *)
Inductive fault : Type :=
| OpenFails                (* the file is not opened and keeps its content *)
| WriteFails.              (* opened, hence truncated, then the dump breaks off *)

Record disk : Type := Disk {
  files : gmap string document;
  (* what happens to the coming writes, first to last; past the end of
     the list every write goes through *)
  outcomes : list (option fault);
  (* how many times a file was opened for writing so far *)
  flushes : nat
}.

Definition USER_ID : string := "Chris".
Definition MEMORY_FILE : string := "travel_agent_memory.json".

Module SimpleMemory.

Record t : Type := Make {
  filepath : string;
  memory_store : json
}.

Definition with_store (self : t) (store : json) : t :=
  {| filepath := filepath self; memory_store := store |}.

(** Of what [open] and [json.load] raise, only [json.JSONDecodeError] is
    caught. *)
Definition _load_from_file (path : string) (w : disk) : result json :=
  match files w !! path with
  | None => Ok (JObj ∅)
  | Some Unreadable => Raise OSError
  | Some NotText => Raise UnicodeDecodeError
  | Some Malformed => Ok (JObj ∅)
  | Some TooDeep => Raise RecursionError
  | Some HugeInt => Raise ValueError
  | Some (Wellformed v) => Ok v
  end.

Definition __init__ (path : string) (w : disk) : result t :=
  match _load_from_file path w with
  | Ok store => Ok {| filepath := path; memory_store := store |}
  | Raise e => Raise e
  end.

Definition _save_to_file (self : t) (w : disk) : result unit * disk :=
  match outcomes w with
  | Some OpenFails :: later =>
      (Raise OSError,
       {| files := files w; outcomes := later; flushes := S (flushes w) |})
  | Some WriteFails :: later =>
      (Raise OSError,
       {| files := <[filepath self := Malformed]> (files w);
          outcomes := later; flushes := S (flushes w) |})
  | None :: later =>
      (Ok tt,
       {| files := <[filepath self := Wellformed (memory_store self)]> (files w);
          outcomes := later; flushes := S (flushes w) |})
  | [] =>
      (Ok tt,
       {| files := <[filepath self := Wellformed (memory_store self)]> (files w);
          outcomes := []; flushes := S (flushes w) |})
  end.

(** [add] mutates the store in place; the state it leaves is returned
    also when it raises. *)
Definition add (user_id category data : string) (self : t) (w : disk)
  : result bool * t * disk :=
  match memory_store self with
  | JObj store =>
      let '(user_memory, store1) := setdefault user_id (JObj ∅) store in
      match user_memory with
      | JObj cats =>
          let '(_, cats1) := setdefault category (JArr []) cats in
          let store2 := <[user_id := JObj cats1]> store1 in
          let self2 := with_store self (JObj store2) in
          match subscript (JObj cats1) category with
          | Ok items =>
              match contains data items with
              | Ok true => (Ok true, self2, w)
              | Ok false =>
                  match items with
                  | JArr xs =>
                      let cats3 := <[category := JArr (xs ++ [JStr data])]> cats1 in
                      let self3 := with_store self (JObj (<[user_id := JObj cats3]> store1)) in
                      match _save_to_file self3 w with
                      | (Ok _, w') => (Ok true, self3, w')
                      | (Raise e, w') => (Raise e, self3, w')
                      end
                  | _ => (Raise AttributeError, self2, w)
                  end
              | Raise e => (Raise e, self2, w)
              end
          | Raise e => (Raise e, self2, w)
          end
      | _ => (Raise AttributeError, with_store self (JObj store1), w)
      end
  | _ => (Raise AttributeError, self, w)
  end.

(** The message printed before returning takes [len(results)]. *)
Definition search_by_category (user_id category : string) (self : t) : result json :=
  match memory_store self with
  | JObj store =>
      match get user_id (JObj ∅) store with
      | JObj cats =>
          let results := get category (JArr []) cats in
          match len results with
          | Ok _ => Ok results
          | Raise e => Raise e
          end
      | _ => Raise AttributeError
      end
  | _ => Raise AttributeError
  end.

End SimpleMemory.

(** ** The tools handed to the agent *)

(** The module-level state: the one [SimpleMemory] and the [user_id]
    attribute of each of the two memory tools, absent until a turn sets it. *)
Record process : Type := Process {
  persistent_data : SimpleMemory.t;
  save_user_preference_user_id : option string;
  retrieve_user_preferences_user_id : option string
}.

(** [getattr(f, "user_id", USER_ID)]. *)
Definition getattr_user_id (attribute : option string) : string :=
  match attribute with
  | Some user_id => user_id
  | None => USER_ID
  end.

Record FlightOffer : Type := Offer {
  airline : string;
  flight_number : string;
  departure_time : string;
  arrival_time : string;
  price : string;
  notes : string
}.

(** The dict a tool returns, by the keys it has. *)
Inductive tool_result : Type :=
| Saved (status message : string)
| Retrieved (status : string) (preferences : json) (count : nat)
| Found (status : string) (flights : list FlightOffer).

Definition status (r : tool_result) : string :=
  match r with
  | Saved s _ | Retrieved s _ _ | Found s _ => s
  end.

Definition flights (r : tool_result) : list FlightOffer :=
  match r with
  | Found _ fs => fs
  | _ => []
  end.

Definition save_user_preference (category preference : string) (p : process) (w : disk)
  : result tool_result * process * disk :=
  let user_id := getattr_user_id (save_user_preference_user_id p) in
  let '(r, self', w') := SimpleMemory.add user_id category preference (persistent_data p) w in
  let p' := {| persistent_data := self';
               save_user_preference_user_id := save_user_preference_user_id p;
               retrieve_user_preferences_user_id := retrieve_user_preferences_user_id p |} in
  match r with
  | Ok _ =>
      (Ok (Saved "success" ("Preference saved in category '" ++ category ++ "'.")), p', w')
  | Raise e => (Raise e, p', w')
  end.

Definition retrieve_user_preferences (category : string) (p : process) : result tool_result :=
  let user_id := getattr_user_id (retrieve_user_preferences_user_id p) in
  match SimpleMemory.search_by_category user_id category (persistent_data p) with
  | Ok results =>
      match len results with
      | Ok n => Ok (Retrieved "success" results n)
      | Raise e => Raise e
      end
  | Raise e => Raise e
  end.

(** ** The dummy flight search

    [find_flights] reads two things besides its arguments: the random
    generator and the clock. Both are oracles here, a sequence of raw draws
    and a sequence of clock readings (seconds of local time), each with the
    number of values used so far. The line it prints on entry is kept, as the
    values it interpolates. *)

Inductive printed : Type :=
| FindFlightsCalled (destination departure_date : string) (preferences : option (list string)).

Record env : Type := Env {
  random : nat -> N;
  drawn : nat;
  clock : nat -> N;
  read : nat;
  stdout : list printed
}.

Definition Gen (A : Type) : Type := env -> A * env.

#[global] Instance Gen_ret : MRet Gen := fun A a e => (a, e).
#[global] Instance Gen_bind : MBind Gen :=
  fun A B f m e => let '(a, e') := m e in f a e'.

(** [random._randbelow(n)]: the next raw draw, brought below [n]. *)
Definition randbelow (n : N) : Gen N := fun e =>
  ((random e (drawn e) mod n)%N,
   {| random := random e; drawn := S (drawn e);
      clock := clock e; read := read e; stdout := stdout e |}).

(** [random.randint(a, b)], both ends included. *)
Definition randint (a b : N) : Gen N :=
  k ← randbelow (b - a + 1); mret (a + k)%N.

(** [random.choice(seq)] on a list of strings that is not empty. *)
Definition choice (seq : list string) : Gen string :=
  i ← randbelow (N.of_nat (length seq)); mret (nth (N.to_nat i) seq "").

(** [datetime.now()]. *)
Definition now : Gen N := fun e =>
  (clock e (read e),
   {| random := random e; drawn := drawn e;
      clock := clock e; read := S (read e); stdout := stdout e |}).

Definition print (line : printed) : Gen unit := fun e =>
  (tt,
   {| random := random e; drawn := drawn e;
      clock := clock e; read := read e; stdout := stdout e ++ [line] |}).

(** [timedelta(hours=h)] in seconds. *)
Definition hours (h : N) : N := (h * 3600)%N.

Definition two_digits (n : N) : string :=
  if (n <? 10)%N then "0" ++ dec n else dec n.

(** [t.strftime("%H:%M")]. *)
Definition strftime_HM (t : N) : string :=
  two_digits ((t / 3600) mod 24) ++ ":" ++ two_digits ((t / 60) mod 60).

Definition all_airlines : list string :=
  ["Delta"; "Qatar Airways"; "Singapore Airlines"; "Ryanair"; "Lufthansa"; "Emirates"].

(** [airline.lower() in pref.lower()]. *)
Definition mentions (pref airline : string) : bool :=
  str_in (lower airline) (lower pref).

(** The two nested loops: the inner one stops at the first airline the
    preference mentions, the outer one as soon as an airline was found. *)
Fixpoint scan (preferences : list string) : option string :=
  match preferences with
  | [] => None
  | pref :: rest =>
      match find (mentions pref) all_airlines with
      | Some airline => Some airline
      | None => scan rest
      end
  end.

(** [preferences] may be [None]; [if preferences:] skips [None] and []. *)
Definition preferred_airline (preferences : option (list string)) : option string :=
  match preferences with
  | Some prefs => scan prefs
  | None => None
  end.

Definition MATCHES : string := "Matches your preferred airline".
Definition STANDARD : string := "Standard option".

Definition preferred_offer (preferred : string) : Gen FlightOffer :=
  number ← randint 100 999;
  t1 ← now; h1 ← randint 2 5;
  t2 ← now; h2 ← randint 10 14;
  amount ← randint 800 1800;
  mret {| airline := preferred;
          flight_number := upper (substring 0 2 preferred) ++ dec number;
          departure_time := strftime_HM (t1 + hours h1);
          arrival_time := strftime_HM (t2 + hours h2);
          price := dec amount ++ " EUR";
          notes := MATCHES |}.

(** [a != preferred_airline]: no name equals [None]. *)
Definition differs (preferred : option string) (a : string) : bool :=
  match preferred with
  | Some p => negb (String.eqb a p)
  | None => true
  end.

Definition standard_offer (preferred : option string) : Gen FlightOffer :=
  chosen ← choice (List.filter (differs preferred) all_airlines);
  number ← randint 100 999;
  t1 ← now; h1 ← randint 2 12;
  t2 ← now; h2 ← randint 14 20;
  amount ← randint 400 1500;
  mret {| airline := chosen;
          flight_number := upper (substring 0 2 chosen) ++ dec number;
          departure_time := strftime_HM (t1 + hours h1);
          arrival_time := strftime_HM (t2 + hours h2);
          price := dec amount ++ " EUR";
          notes := STANDARD |}.

Fixpoint standard_offers (n : nat) (preferred : option string) : Gen (list FlightOffer) :=
  match n with
  | O => mret []
  | S n' =>
      offer ← standard_offer preferred;
      others ← standard_offers n' preferred;
      mret (offer :: others)
  end.

Definition find_flights (destination departure_date : string)
    (preferences : option (list string)) : Gen tool_result :=
  _ ← print (FindFlightsCalled destination departure_date preferences);
  let preferred := preferred_airline preferences in
  first ← match preferred with
          | Some a => offer ← preferred_offer a; mret [offer]
          | None => mret []
          end;
  n ← randint 1 2;
  others ← standard_offers (N.to_nat n) preferred;
  mret (Found "success" (first ++ others)).

(** ** One turn of the conversation *)

Record Part : Type := { text : option string }.
Record Content : Type := { parts : option (list Part) }.
Record Event : Type := { is_final_response : bool; content : option Content }.

Definition NO_RESPONSE : string := "No response received.".

(** The [async for] loop over the events the runner yields in this turn,
    up to the first [return]. *)
Fixpoint first_final_response (events : list Event) : option string :=
  match events with
  | [] => Some NO_RESPONSE
  | event :: later =>
      if is_final_response event
      then match content event with
           | Some c =>
               match parts c with
               | Some (part :: _) => text part
               | _ => first_final_response later
               end
           | None => first_final_response later
           end
      else first_final_response later
  end.

(** [events] is what [runner.run_async] yields for the turn. The value
    returned is Python's: a [str], or [None] when the part has no text. *)
Definition call_agent_async (events : list Event) (query user_id session_id : string)
    (p : process) : option string * process :=
  let p' := {| persistent_data := persistent_data p;
               save_user_preference_user_id := Some user_id;
               retrieve_user_preferences_user_id := Some user_id |} in
  (first_final_response events, p').

(** ** The runner at work, and the chat loop

    [call_agent_async] above is the loop given the events of a turn.
    Between two events the runner is at work: it calls the tools handed to
    the agent, which change the store and the disk and read the clock, it
    sees what they return or raise, and it may raise itself. A turn of the
    runner is therefore kept as a tree of what it does next: stop, yield an
    event, raise, or call one of the three tools and go on from the result.
    The runner is the library's: which tree it runs for a query is a
    parameter below. The tools are called with arguments of the types
    they are annotated with, one at a time; a turn that never comes to an
    end is not represented.

    [interactive_chat] reads lines from standard input until one of them is
    "quit" or "exit" in any letter case, and hands every other line to
    [call_agent_async] for the user [USER_ID]; nothing is caught, so what
    a turn raises ends the chat, as does the [EOFError] of [input] when
    standard input has no line left. The loop returns nothing; what is
    kept of it is how it ended, the turns that returned (the query and what
    the turn returned), the world it leaves and the lines it did not read. *)

Record world : Type := World {
  proc : process;
  on_disk : disk;
  around : env
}.

Inductive generator : Type :=
| Stop
| Yield (event : Event) (next : generator)
| Fails (e : exn)
| CallSave (category preference : string) (next : result tool_result -> generator)
| CallRetrieve (category : string) (next : result tool_result -> generator)
| CallFind (destination departure_date : string) (preferences : option (list string))
           (next : tool_result -> generator).

(** The [async for] loop of [call_agent_async] drawing on the runner: the
    generator runs up to its next event, the loop tests the event and
    returns or asks for the next one; a generator left behind by [return]
    does nothing more. *)
Fixpoint consume (g : generator) (w : world) : result (option string) * world :=
  match g with
  | Stop => (Ok (Some NO_RESPONSE), w)
  | Fails e => (Raise e, w)
  | Yield event next =>
      if is_final_response event
      then match content event with
           | Some c =>
               match parts c with
               | Some (part :: _) => (Ok (text part), w)
               | _ => consume next w
               end
           | None => consume next w
           end
      else consume next w
  | CallSave category preference next =>
      let '(r, p', d') := save_user_preference category preference (proc w) (on_disk w) in
      consume (next r) {| proc := p'; on_disk := d'; around := around w |}
  | CallRetrieve category next =>
      consume (next (retrieve_user_preferences category (proc w))) w
  | CallFind destination departure_date preferences next =>
      let '(r, e') := find_flights destination departure_date preferences (around w) in
      consume (next r) {| proc := proc w; on_disk := on_disk w; around := e' |}
  end.

(** [call_agent_async] with the runner at work: the two [setattr], then
    the loop. *)
Definition call_agent_async_run (g : generator) (query user_id session_id : string)
    (w : world) : result (option string) * world :=
  let p' := {| persistent_data := persistent_data (proc w);
               save_user_preference_user_id := Some user_id;
               retrieve_user_preferences_user_id := Some user_id |} in
  consume g {| proc := p'; on_disk := on_disk w; around := around w |}.

(** A runner that only yields the events of a list. *)
Fixpoint yields (events : list Event) : generator :=
  match events with
  | [] => Stop
  | event :: later => Yield event (yields later)
  end.

Definition SESSION_ID : string := "session_001".

(** [user_query.lower() in ["quit", "exit"]]. *)
Definition quits (user_query : string) : bool :=
  existsb (String.eqb (lower user_query)) ["quit"; "exit"].

Inductive chat_end : Type :=
| Goodbye
| Raised (e : exn).

Record chat : Type := Chat {
  ending : chat_end;
  turns : list (string * option string);
  leaves : world;
  unread : list string
}.

Fixpoint interactive_chat {R : Type}
    (run_async : R -> string -> string -> string -> generator * R)
    (stdin : list string) (runner : R) (w : world) : chat :=
  match stdin with
  | [] => Chat (Raised EOFError) [] w []
  | user_query :: later =>
      if quits user_query
      then Chat Goodbye [] w later
      else
        let '(g, runner') := run_async runner USER_ID SESSION_ID user_query in
        match call_agent_async_run g user_query USER_ID SESSION_ID w with
        | (Ok response, w') =>
            let rest := interactive_chat run_async later runner' w' in
            Chat (ending rest) ((user_query, response) :: turns rest) (leaves rest) (unread rest)
        | (Raise e, w') => Chat (Raised e) [] w' later
        end
  end.

(** A runner that saves every query as a travel preference and answers
    with the query, but raises on the query "boom". *)
Definition echo (runner : unit) (user_id session_id query : string) : generator * unit :=
  (if String.eqb query "boom"
   then Fails ValueError
   else CallSave "travel_preferences" query
          (fun _ => Yield {| is_final_response := true;
                             content := Some {| parts := Some [ {| text := Some query |} ] |} |}
                      Stop),
   tt).

(** ** Notions used to state the properties *)

(** The shape the program writes: users to categories to lists of
    strings, no string twice in a list. *)
Definition as_str (x : json) : option string :=
  match x with
  | JStr s => Some s
  | _ => None
  end.

Definition values_all (f : json -> bool) (m : gmap string json) : bool :=
  forallb f (snd <$> map_to_list m).

Definition distinct_strings (x : json) : bool :=
  match x with
  | JArr xs =>
      match mapM as_str xs with
      | Some ss => bool_decide (NoDup ss)
      | None => false
      end
  | _ => false
  end.

Definition categories_ok (x : json) : bool :=
  match x with
  | JObj cats => values_all distinct_strings cats
  | _ => false
  end.

Definition store_ok (x : json) : bool :=
  match x with
  | JObj store => values_all categories_ok store
  | _ => false
  end.

(** The categories of a user and the list of a category, as [setdefault]
    finds or creates them. *)
Definition cats_of (u : string) (store : gmap string json) : option (gmap string json) :=
  match store !! u with
  | Some (JObj cats) => Some cats
  | Some _ => None
  | None => Some ∅
  end.

Definition items_of (c : string) (cats : gmap string json) : option (list json) :=
  match cats !! c with
  | Some (JArr xs) => Some xs
  | Some _ => None
  | None => Some []
  end.

(** How many elements of a list equal the string [data]. *)
Definition occurrences (data : string) (xs : list json) : nat :=
  length (List.filter (eq_str data) xs).

(** The next write goes through. *)
Definition accepts_write (w : disk) : bool :=
  match outcomes w with
  | Some _ :: _ => false
  | _ => true
  end.

(** The store a restart would load is the store in memory. *)
Definition in_sync (self : SimpleMemory.t) (w : disk) : Prop :=
  SimpleMemory._load_from_file (SimpleMemory.filepath self) w
  = Ok (SimpleMemory.memory_store self).

(** A sequence of [add] calls, each given as (user, category, value); a
    call that raises leaves its state to the next one. *)
Fixpoint run_adds (calls : list (string * string * string))
    (self : SimpleMemory.t) (w : disk) : SimpleMemory.t * disk :=
  match calls with
  | [] => (self, w)
  | (user_id, category, data) :: later =>
      let '(_, self', w') := SimpleMemory.add user_id category data self w in
      run_adds later self' w'
  end.

(** [value in search(user, category)] on the store a restart builds from
    the file at [path]. *)
Definition found_after_restart (path user category value : string) (w : disk) : Prop :=
  exists reloaded results,
    SimpleMemory.__init__ path w = Ok reloaded
    /\ SimpleMemory.search_by_category user category reloaded = Ok results
    /\ contains value results = Ok true.

(** Every [add] that returns [True] from this state survives a restart. *)
Definition durable (self : SimpleMemory.t) (w : disk) : Prop :=
  forall user category value self' w',
    SimpleMemory.add user category value self w = (Ok true, self', w') ->
    found_after_restart (SimpleMemory.filepath self') user category value w'.

(** The tool call comes back with a result whose status is "error". *)
Definition reports_error (category preference : string) (p : process) (w : disk) : Prop :=
  exists r p' w',
    save_user_preference category preference p w = (Ok r, p', w')
    /\ status r = "error".

(** A document of the shape the program writes, duplicates or not. *)
Definition list_of_strings (x : json) : bool :=
  match x with
  | JArr xs => forallb (fun y => match y with JStr _ => true | _ => false end) xs
  | _ => false
  end.

Definition categories_shaped (x : json) : bool :=
  match x with
  | JObj cats => values_all list_of_strings cats
  | _ => false
  end.

Definition store_shaped (x : json) : bool :=
  match x with
  | JObj store => values_all categories_shaped store
  | _ => false
  end.

Definition expected_structure (d : document) : Prop :=
  exists v, d = Wellformed v /\ store_shaped v = true.

(** Loading never fails, and gives the empty store both when there is no
    file and when the file has not the expected structure. *)
Definition load_always_recovers (path : string) (w : disk) : Prop :=
  exists v,
    SimpleMemory._load_from_file path w = Ok v
    /\ (files w !! path = None -> v = JObj ∅)
    /\ (forall d, files w !! path = Some d -> ~ expected_structure d -> v = JObj ∅).

(** The test of the loop in [call_agent_async]: a final response whose
    content has at least one part. *)
Definition carries_final_response (event : Event) : bool :=
  is_final_response event
  && match content event with
     | Some c => match parts c with Some (_ :: _) => true | _ => false end
     | None => false
     end.

(** A final response with a text: the event is final and some part of its
    content has a text. *)
Definition final_textual_response (event : Event) : bool :=
  is_final_response event
  && match content event with
     | Some c =>
         match parts c with
         | Some ps =>
             existsb (fun part => match text part with Some _ => true | None => false end) ps
         | None => false
         end
     | None => false
     end.

(** When no event of the turn is a final response with a text, the turn
    returns "No response received.". *)
Definition falls_back (events : list Event) : Prop :=
  Forall (fun event => final_textual_response event = false) events ->
  forall query user_id session_id p,
    (call_agent_async events query user_id session_id p).1 = Some NO_RESPONSE.

(** [a] is the airline of the first match: some preference mentions it,
    no earlier preference mentions any airline of the catalogue, and that
    preference mentions no airline standing earlier in the catalogue. *)
Definition first_match (preferences : list string) (a : string) : Prop :=
  exists i j pref,
    preferences !! i = Some pref
    /\ all_airlines !! j = Some a
    /\ mentions pref a = true
    /\ (forall i' pref' a', i' < i -> preferences !! i' = Some pref' ->
          In a' all_airlines -> mentions pref' a' = false)
    /\ (forall j' a', j' < j -> all_airlines !! j' = Some a' -> mentions pref a' = false).

(** The ranges of a generated offer. An offset of [h] hours lies in
    the range from [lo] to [hi]; [closed] says whether [hi] itself counts. *)
Definition offset_in (closed : bool) (lo hi h : N) : Prop :=
  (lo <= h)%N /\ if closed then (h <= hi)%N else (h < hi)%N.

(** The flight number: the first two letters of the airline in capitals,
    then a number from 100 to 999, which has three digits. *)
Definition numbered (o : FlightOffer) : Prop :=
  exists n, (100 <= n <= 999)%N
            /\ String.length (dec n) = 3
            /\ String.length (upper (substring 0 2 (airline o))) = 2
            /\ flight_number o = upper (substring 0 2 (airline o)) ++ dec n.

(** [time] shows a reading of the clock taken between [e] and [e'], moved
    by a number of hours in the range. *)
Definition at_offset (closed : bool) (lo hi : N) (e e' : env) (time : string) : Prop :=
  exists k h, read e <= k < read e'
              /\ offset_in closed lo hi h
              /\ time = strftime_HM (clock e k + hours h).

Definition priced (lo hi : N) (o : FlightOffer) : Prop :=
  exists n, (lo <= n <= hi)%N /\ price o = dec n ++ " EUR".

Definition in_ranges (closed : bool) (e e' : env) (o : FlightOffer) : Prop :=
  numbered o
  /\ (notes o = MATCHES
      /\ at_offset closed 2 5 e e' (departure_time o)
      /\ at_offset closed 10 14 e e' (arrival_time o)
      /\ priced 800 1800 o
      \/ notes o = STANDARD
         /\ at_offset closed 2 12 e e' (departure_time o)
         /\ at_offset closed 14 20 e e' (arrival_time o)
         /\ priced 400 1500 o).

(** Two environments give the same draws from here on, and the same
    clock readings from here on. *)
Definition same_draws (e1 e2 : env) : Prop :=
  (forall k, random e1 k = random e2 k) /\ drawn e1 = drawn e2.

Definition same_clock (e1 e2 : env) : Prop :=
  (forall k, clock e1 k = clock e2 k) /\ read e1 = read e2.

(** A computation that gives the same value, and leaves environments that
    still agree, whenever it starts in environments that agree on draws
    and clock. *)
Definition respects {A : Type} (m : Gen A) : Prop :=
  forall e1 e2,
    same_draws e1 e2 /\ same_clock e1 e2 ->
    (m e1).1 = (m e2).1 /\ same_draws (m e1).2 (m e2).2 /\ same_clock (m e1).2 (m e2).2.

(** The result of [find_flights] is fixed by the preferences and by what
    [given] relates in the two environments, and always has status
    "success". *)
Definition result_fixed_by (given : env -> env -> Prop) : Prop :=
  forall destination1 date1 destination2 date2 preferences e1 e2,
    given e1 e2 ->
    (find_flights destination1 date1 preferences e1).1
    = (find_flights destination2 date2 preferences e2).1
    /\ status (find_flights destination1 date1 preferences e1).1 = "success".

(** The turn that [run_async] starts for [line] in some state of the
    runner and of the world raises [e] and leaves the world [after]. *)
Definition turn_raises {R : Type}
    (run_async : R -> string -> string -> string -> generator * R)
    (line : string) (e : exn) (after : world) : Prop :=
  exists runner w,
    call_agent_async_run (run_async runner USER_ID SESSION_ID line).1
      line USER_ID SESSION_ID w = (Raise e, after).

(** What every user other than [user_id] has in memory is the same in
    [p'] as in [p]. *)
Definition keeps_others (user_id : string) (p p' : process) : Prop :=
  forall user category,
    user <> user_id ->
    SimpleMemory.search_by_category user category (persistent_data p')
    = SimpleMemory.search_by_category user category (persistent_data p).

(** Both memory tools resolve their user to [user_id]. *)
Definition acts_for (user_id : string) (p : process) : Prop :=
  getattr_user_id (save_user_preference_user_id p) = user_id
  /\ getattr_user_id (retrieve_user_preferences_user_id p) = user_id.

(** The offer carries the note of a match. *)
Definition matching (o : FlightOffer) : bool := String.eqb (notes o) MATCHES.

Definition fresh : SimpleMemory.t := SimpleMemory.Make MEMORY_FILE (JObj ∅).
Definition blank : disk := Disk ∅ [] 0.

Definition first_add : result bool * SimpleMemory.t * disk :=
  SimpleMemory.add "Chris" "food" "sushi" fresh blank.

(** A disk whose next write is refused at [open], the process as the
    module leaves it after import on an empty directory, and a file that
    holds a JSON list. *)
Definition refusing : disk := Disk ∅ [Some OpenFails] 0.
Definition refused_add : result bool * SimpleMemory.t * disk :=
  SimpleMemory.add "Chris" "food" "sushi" fresh refusing.
Definition started : process := Process fresh None None.
Definition dana_add : result bool * SimpleMemory.t * disk :=
  SimpleMemory.add "Dana" "food" "tea" fresh blank.
Definition holds_a_list : disk :=
  Disk {[ MEMORY_FILE := Wellformed (JArr [JStr "sushi"]) ]} [] 0.

(** A turn whose one event is final and has one part, without text. *)
Definition final_without_text : list Event :=
  [ {| is_final_response := true;
       content := Some {| parts := Some [ {| text := None |} ] |} |} ].

(** A disk on which the backing file is there and cannot be opened. *)
Definition locked : disk := Disk {[ MEMORY_FILE := Unreadable ]} [] 0.

Definition quiet (random clock : nat -> N) : env := Env random 0 clock 0 [].

(** Every raw draw is 3 and the clock stands at midnight. *)
Definition threes : env := quiet (fun _ => 3%N) (fun _ => 0%N).

(** Every raw draw is 0; the clock stands at midnight, or at one. *)
Definition at_midnight : env := quiet (fun _ => 0%N) (fun _ => 0%N).
Definition at_one : env := quiet (fun _ => 0%N) (fun _ => 3600%N).

Example chat_until_exit :
  let c := interactive_chat echo ["Hi"; "Flights to Paris"; "EXIT"; "never read"] tt
             (World started blank at_midnight) in
  ending c = Goodbye
  /\ turns c = [("Hi", Some "Hi"); ("Flights to Paris", Some "Flights to Paris")]
  /\ unread c = ["never read"]
  /\ SimpleMemory.search_by_category "Chris" "travel_preferences"
       (persistent_data (proc (leaves c)))
     = Ok (JArr [JStr "Hi"; JStr "Flights to Paris"])
  /\ flushes (on_disk (leaves c)) = 2.
Proof. vm_compute. auto 6. Qed.

Example chat_until_a_turn_raises :
  let c := interactive_chat echo ["Hi"; "boom"; "exit"] tt (World started blank at_midnight) in
  ending c = Raised ValueError /\ turns c = [("Hi", Some "Hi")] /\ unread c = ["exit"].
Proof. vm_compute. auto. Qed.

Example load_absent :
  SimpleMemory._load_from_file MEMORY_FILE (Disk ∅ [] 0) = Ok (JObj ∅).
Proof. reflexivity. Qed.

Example add_then_search :
  let '(r, self, w) :=
    SimpleMemory.add "Chris" "food" "sushi" (SimpleMemory.Make MEMORY_FILE (JObj ∅)) (Disk ∅ [] 0) in
  r = Ok true
  /\ SimpleMemory.search_by_category "Chris" "food" self = Ok (JArr [JStr "sushi"])
  /\ flushes w = 1.
Proof. vm_compute. auto. Qed.

Example delta_first :
  (fst (find_flights "Paris" "2025-01-01" (Some ["I love Delta"])
          (quiet (fun _ => 0%N) (fun _ => 0%N)))) =
  Found "success"
    [Offer "Delta" "DE100" "02:00" "10:00" "800 EUR" MATCHES;
     Offer "Qatar Airways" "QA100" "02:00" "14:00" "400 EUR" STANDARD].
Proof. vm_compute. reflexivity. Qed.

Example window_seats_match_nothing :
  preferred_airline (Some ["I love window seats"]) = None.
Proof. vm_compute. reflexivity. Qed.

Example capitals_and_catalogue_order :
  preferred_airline (Some ["no idea"; "LUFTHANSA or ryanair"]) = Some "Ryanair".
Proof. vm_compute. reflexivity. Qed.

Example final_part_without_text :
  first_final_response
    [ {| is_final_response := true;
         content := Some {| parts := Some [ {| text := None |} ] |} |} ]
  = None.
Proof. reflexivity. Qed.

Example retry_after_refusal :
  refused_add.1.1 = Raise OSError
  /\ SimpleMemory.search_by_category "Chris" "food" refused_add.1.2
     = Ok (JArr [JStr "sushi"])
  /\ files refused_add.2 !! MEMORY_FILE = None.
Proof. vm_compute. auto. Qed.

(** ** The store: lookups after [setdefault] and the two ways of [add] *)

Import SimpleMemory.

Lemma values_all_lookup f (m : gmap string json) k x :
  values_all f m = true -> m !! k = Some x -> f x = true.
Proof.
  unfold values_all. rewrite forallb_forall. intros Hall Hk.
  apply Hall, list_elem_of_In, list_elem_of_fmap.
  exists (k, x). split; [done|]. by apply elem_of_map_to_list.
Qed.

Lemma values_all_intro f (m : gmap string json) :
  (forall k x, m !! k = Some x -> f x = true) -> values_all f m = true.
Proof.
  intros H. unfold values_all. rewrite forallb_forall. intros x Hx.
  apply list_elem_of_In, list_elem_of_fmap in Hx as [[k y] [-> Hky]].
  apply elem_of_map_to_list in Hky. eauto.
Qed.

Lemma with_store_same self : with_store self (memory_store self) = self.
Proof. by destruct self. Qed.

(** [add] when the value is already listed: nothing changes. *)
Lemma add_present u c v self w store cats xs :
  memory_store self = JObj store ->
  store !! u = Some (JObj cats) ->
  cats !! c = Some (JArr xs) ->
  existsb (eq_str v) xs = true ->
  add u c v self w = (Ok true, self, w).
Proof.
  intros Hs Hu Hc Hin. unfold add, setdefault, subscript. rewrite Hs, Hu, Hc.
  simpl. rewrite Hc. simpl. rewrite Hin.
  rewrite (insert_id store u) by done. by rewrite <- Hs, with_store_same.
Qed.

(** [add] when the value is not listed yet: it is appended and the whole
    store is written. *)
Lemma add_absent u c v self w store cats xs :
  memory_store self = JObj store ->
  cats_of u store = Some cats ->
  items_of c cats = Some xs ->
  existsb (eq_str v) xs = false ->
  let self' :=
    with_store self (JObj (<[u := JObj (<[c := JArr (xs ++ [JStr v])]> cats)]> store)) in
  add u c v self w =
  match _save_to_file self' w with
  | (Ok _, w') => (Ok true, self', w')
  | (Raise e, w') => (Raise e, self', w')
  end.
Proof.
  intros Hs Hu Hc Hin. unfold add, setdefault, subscript, cats_of, items_of in *.
  rewrite Hs.
  destruct (store !! u) as [[]|] eqn:Eu; simplify_eq/=.
  all: destruct (_ !! c) as [[]|] eqn:Ec; simplify_eq/=.
  all: rewrite ?Ec, ?lookup_insert_eq; simpl; rewrite ?Hin.
  all: rewrite ?insert_insert_eq. all: reflexivity.
Qed.

(** *** Counting a value in a list of distinct strings *)

Lemma mapM_as_str xs ss : mapM as_str xs = Some ss -> xs = JStr <$> ss.
Proof.
  intros H. symmetry. apply (mapM_fmap_Some_inv as_str JStr _ _ H).
  intros x y. destruct x; simpl; congruence.
Qed.

Lemma eq_str_true v x : eq_str v x = true <-> x = JStr v.
Proof.
  destruct x; simpl; try (split; [discriminate|congruence]).
  rewrite String.eqb_eq. split; congruence.
Qed.

Lemma existsb_eq_str v ss :
  existsb (eq_str v) (JStr <$> ss) = true <-> v ∈ ss.
Proof.
  rewrite existsb_exists. split.
  - intros (x & Hx & Hv). apply eq_str_true in Hv as ->.
    apply list_elem_of_In, list_elem_of_fmap in Hx as (s & [= ->] & Hs). done.
  - intros Hv. exists (JStr v). split; [|by apply eq_str_true].
    apply list_elem_of_In, list_elem_of_fmap. eauto.
Qed.

Lemma occurrences_none v xs :
  existsb (eq_str v) xs = false -> occurrences v xs = 0.
Proof.
  unfold occurrences. induction xs as [|x xs IH]; simpl; [done|].
  intros [H1 H2]%orb_false_iff. rewrite H1. auto.
Qed.

Lemma occurrences_app v xs ys :
  occurrences v (xs ++ ys) = occurrences v xs + occurrences v ys.
Proof. unfold occurrences. by rewrite List.filter_app, length_app. Qed.

Lemma occurrences_cons v x xs :
  occurrences v (x :: xs) = (if eq_str v x then 1 else 0) + occurrences v xs.
Proof. unfold occurrences. simpl. by destruct (eq_str v x). Qed.

Lemma occurrences_distinct v xs :
  distinct_strings (JArr xs) = true ->
  existsb (eq_str v) xs = true ->
  occurrences v xs = 1.
Proof.
  unfold distinct_strings.
  destruct (mapM as_str xs) as [ss|] eqn:E; [|discriminate].
  apply mapM_as_str in E as ->. intros Hnd%bool_decide_eq_true.
  induction Hnd as [|s ss Hs Hnd IH]; [discriminate|].
  rewrite fmap_cons, occurrences_cons. cbn [existsb eq_str].
  destruct (String.eqb v s) eqn:Evs; simpl.
  - intros _. apply String.eqb_eq in Evs as ->.
    rewrite occurrences_none; [done|].
    apply not_true_is_false. by rewrite existsb_eq_str.
  - exact IH.
Qed.

Lemma save_accepted self w :
  accepts_write w = true ->
  exists w', _save_to_file self w = (Ok tt, w')
             /\ files w' = <[filepath self := Wellformed (memory_store self)]> (files w)
             /\ flushes w' = S (flushes w).
Proof.
  unfold accepts_write, _save_to_file.
  destruct (outcomes w) as [|[f|] later]; [|discriminate|]; intros _; eauto.
Qed.

(** What a well-shaped store holds under a user and a category. *)
Lemma store_ok_cats u store :
  store_ok (JObj store) = true ->
  exists cats, cats_of u store = Some cats /\ categories_ok (JObj cats) = true.
Proof.
  simpl. intros Hok. unfold cats_of. destruct (store !! u) as [x|] eqn:E.
  - pose proof (values_all_lookup _ _ _ _ Hok E) as Hx.
    destruct x; try discriminate. eauto.
  - exists ∅. split; [done|]. by apply values_all_intro.
Qed.

Lemma categories_ok_items c cats :
  categories_ok (JObj cats) = true ->
  exists xs, items_of c cats = Some xs /\ distinct_strings (JArr xs) = true.
Proof.
  simpl. intros Hok. unfold items_of. destruct (cats !! c) as [x|] eqn:E.
  - pose proof (values_all_lookup _ _ _ _ Hok E) as Hx.
    destruct x; try discriminate. eauto.
  - exists []. split; [done|]. reflexivity.
Qed.

Lemma search_listed u c self store cats x :
  memory_store self = JObj store ->
  store !! u = Some (JObj cats) ->
  cats !! c = Some x ->
  search_by_category u c self = match len x with Ok _ => Ok x | Raise e => Raise e end.
Proof.
  intros Hs Hu Hc. unfold search_by_category, get. by rewrite Hs, Hu, Hc.
Qed.

Lemma values_all_insert f (m : gmap string json) k x :
  values_all f m = true -> f x = true -> values_all f (<[k := x]> m) = true.
Proof.
  intros Hm Hx. apply values_all_intro. intros k' y.
  destruct (decide (k = k')) as [->|Hne].
  - rewrite lookup_insert_eq. by intros [= <-].
  - rewrite lookup_insert_ne by done. apply (values_all_lookup _ _ _ _ Hm).
Qed.

Lemma distinct_append v xs :
  distinct_strings (JArr xs) = true ->
  existsb (eq_str v) xs = false ->
  distinct_strings (JArr (xs ++ [JStr v])) = true.
Proof.
  unfold distinct_strings.
  destruct (mapM as_str xs) as [ss|] eqn:E; [|discriminate].
  apply mapM_as_str in E as ->. intros Hnd%bool_decide_eq_true Hin.
  change [JStr v] with (JStr <$> [v]). rewrite <- fmap_app.
  rewrite (mapM_fmap_Some as_str JStr) by done.
  apply bool_decide_eq_true, NoDup_app. split_and!.
  - done.
  - intros s Hs ->%list_elem_of_singleton.
    apply existsb_eq_str in Hs. congruence.
  - apply NoDup_singleton.
Qed.

(** What [add] finds on a store of the documented shape: the categories of
    the user, the list of the category, and the value in it or not. *)
Lemma add_on_store_ok u c v self :
  store_ok (memory_store self) = true ->
  exists store cats xs,
    memory_store self = JObj store
    /\ cats_of u store = Some cats
    /\ items_of c cats = Some xs
    /\ categories_ok (JObj cats) = true
    /\ distinct_strings (JArr xs) = true
    /\ (existsb (eq_str v) xs = true ->
        store !! u = Some (JObj cats) /\ cats !! c = Some (JArr xs)).
Proof.
  intros Hok.
  destruct (memory_store self) as [| | | | | |store] eqn:Hs; try discriminate.
  destruct (store_ok_cats u store Hok) as (cats & Hcats & Hcok).
  destruct (categories_ok_items c cats Hcok) as (xs & Hxs & Hdist).
  exists store, cats, xs. split_and!; [done..|]. intros Hin.
  assert (cats !! c = Some (JArr xs)) as Hc.
  { unfold items_of in Hxs. destruct (cats !! c) as [[]|] eqn:E; by simplify_eq/=. }
  split; [|done].
  unfold cats_of in Hcats.
  destruct (store !! u) as [[]|] eqn:E; simplify_eq/=; try done.
  all: by rewrite lookup_empty in Hc.
Qed.

(** The documented shape is kept by [add], whatever it returns or raises. *)
Lemma add_keeps_store_ok u c v self w :
  store_ok (memory_store self) = true ->
  store_ok (memory_store (add u c v self w).1.2) = true.
Proof.
  intros Hok.
  destruct (add_on_store_ok u c v self Hok)
    as (store & cats & xs & Hs & Hcats & Hxs & Hcok & Hdist & Hfound).
  destruct (existsb (eq_str v) xs) eqn:Hin.
  - destruct (Hfound eq_refl) as [Hu Hc].
    by rewrite (add_present _ _ _ _ w _ _ _ Hs Hu Hc Hin).
  - pose proof (add_absent _ _ _ _ w _ _ _ Hs Hcats Hxs Hin) as Hadd. cbv zeta in Hadd.
    rewrite Hadd. rewrite Hs in Hok.
    destruct (_save_to_file _ w) as [[[]|e] w']; cbn [fst snd with_store memory_store].
    all: apply values_all_insert; [done|]; apply values_all_insert; [done|].
    all: by apply distinct_append.
Qed.

Lemma run_adds_keeps_store_ok calls self w :
  store_ok (memory_store self) = true ->
  store_ok (memory_store (run_adds calls self w).1) = true.
Proof.
  revert self w. induction calls as [|[[u c] v] calls IH]; intros self w Hok; [done|].
  cbn [run_adds]. pose proof (add_keeps_store_ok u c v self w Hok) as Hstep.
  destruct (add u c v self w) as [[r self'] w']. by apply IH.
Qed.

(** A process that starts without a file, or with one that is not JSON,
    starts on a store of the documented shape. *)
Lemma init_store_ok path w self :
  files w !! path = None \/ files w !! path = Some Malformed ->
  __init__ path w = Ok self ->
  store_ok (memory_store self) = true.
Proof.
  unfold __init__, _load_from_file. intros [-> | ->] [= <-]; reflexivity.
Qed.

(** C1. Idempotent dedup: on a store of the documented shape (no string
    twice in a list) and with a disk that takes the write, calling
    [add user category value] twice returns [True] both times, leaves a
    list for (user, category) that holds the value exactly once, and the
    second call opens the file for writing not even once; the store still
    has the documented shape. *)
Theorem add_twice_dedup (user category value : string) (self : SimpleMemory.t) (w : disk) :
  store_ok (memory_store self) = true ->
  accepts_write w = true ->
  exists self1 w1 self2 w2 xs,
    add user category value self w = (Ok true, self1, w1)
    /\ add user category value self1 w1 = (Ok true, self2, w2)
    /\ search_by_category user category self2 = Ok (JArr xs)
    /\ occurrences value xs = 1
    /\ flushes w2 = flushes w1
    /\ store_ok (memory_store self2) = true.
Proof.
  intros Hok Hw.
  destruct (add_on_store_ok user category value self Hok)
    as (store & cats & xs & Hs & Hcats & Hxs & Hcok & Hdist & Hfound).
  destruct (existsb (eq_str value) xs) eqn:Hin.
  - (* already listed: both calls are the no-op *)
    destruct (Hfound eq_refl) as [Hu Hc].
    exists self, w, self, w, xs.
    rewrite (add_present _ _ _ _ _ _ _ _ Hs Hu Hc Hin).
    rewrite (search_listed _ _ _ _ _ _ Hs Hu Hc). cbn [len].
    split_and!; [done..| |done|done]. by apply occurrences_distinct.
  - (* not listed: the first call appends and writes, the second is the no-op *)
    pose proof (add_keeps_store_ok user category value self w Hok) as Hok'.
    pose proof (add_absent _ _ _ _ w _ _ _ Hs Hcats Hxs Hin) as Hadd. cbv zeta in Hadd.
    set (cats' := <[category := JArr (xs ++ [JStr value])]> cats) in *.
    set (self' := with_store self (JObj (<[user := JObj cats']> store))) in *.
    destruct (save_accepted self' w Hw) as (w' & Hsave & _ & _).
    rewrite Hsave in Hadd. rewrite Hadd in Hok'.
    assert (existsb (eq_str value) (xs ++ [JStr value]) = true) as Hin'.
    { rewrite existsb_app. cbn [existsb eq_str]. by rewrite String.eqb_refl, orb_true_r. }
    exists self', w', self', w', (xs ++ [JStr value])%list.
    rewrite Hadd.
    rewrite (add_present user category value self' w' (<[user := JObj cats']> store)
               cats' (xs ++ [JStr value]));
      [|done|by rewrite lookup_insert_eq|by unfold cats'; rewrite lookup_insert_eq|done].
    rewrite (search_listed user category self' (<[user := JObj cats']> store) cats'
               (JArr (xs ++ [JStr value])));
      [|done|by rewrite lookup_insert_eq|by unfold cats'; rewrite lookup_insert_eq].
    cbn [len]. split_and!; [done..| |done|done].
    rewrite occurrences_app, (occurrences_none _ _ Hin), occurrences_cons.
    cbn [eq_str]. by rewrite String.eqb_refl.
Qed.

Lemma add_twice_dedup_witness :
  exists self1 w1 self2 w2 xs,
    add "Chris" "food" "sushi" fresh blank = (Ok true, self1, w1)
    /\ add "Chris" "food" "sushi" self1 w1 = (Ok true, self2, w2)
    /\ search_by_category "Chris" "food" self2 = Ok (JArr xs)
    /\ occurrences "sushi" xs = 1
    /\ flushes w2 = flushes w1
    /\ store_ok (memory_store self2) = true.
Proof. apply (add_twice_dedup "Chris" "food" "sushi" fresh blank); reflexivity. Defined.

(** *** [add] leaves every other (user, category) alone *)

(** The store [add] leaves, whatever it returns or raises: the one it
    found, or that one with the categories of [u] replaced by categories
    that differ at most under [c]. *)
Lemma add_store u c v self w :
  (add u c v self w).1.2 = self
  \/ exists store cats cats',
       memory_store self = JObj store
       /\ cats_of u store = Some cats
       /\ (add u c v self w).1.2 = with_store self (JObj (<[u := JObj cats']> store))
       /\ forall c', c' <> c -> cats' !! c' = cats !! c'.
Proof.
  unfold add, setdefault, subscript, cats_of.
  destruct (memory_store self) as [| | | | | |store] eqn:Hs; try (by left).
  destruct (store !! u) as [um|] eqn:Eu.
  - destruct um as [| | | | | |cats];
      try (left; simpl; by rewrite <- Hs, with_store_same).
    right. exists store, cats. rewrite Eu.
    destruct (cats !! c) as [items|] eqn:Ec; simpl; rewrite ?Ec, ?lookup_insert_eq; simpl.
    + destruct (contains v items) as [[]|];
        [exists cats; by split_and!| |exists cats; by split_and!].
      destruct items; try (exists cats; by split_and!).
      destruct (_save_to_file _ w) as [[] ?]; simpl;
        (eexists; split_and!; [done..|]); intros; by rewrite lookup_insert_ne.
    + destruct (_save_to_file _ w) as [[] ?]; simpl;
        (eexists; split_and!; [done..|]); intros; by rewrite !lookup_insert_ne.
  - right. exists store, ∅. rewrite Eu, lookup_empty. simpl.
    rewrite lookup_insert_eq. simpl.
    destruct (_save_to_file _ w) as [[] ?]; simpl; rewrite !insert_insert_eq;
      (eexists; split_and!; [done..|]); intros; by rewrite !lookup_insert_ne.
Qed.

Lemma search_replaced u c' self store cats cats' :
  memory_store self = JObj store ->
  cats_of u store = Some cats ->
  cats' !! c' = cats !! c' ->
  search_by_category u c' (with_store self (JObj (<[u := JObj cats']> store)))
  = search_by_category u c' self.
Proof.
  intros Hs Hu Hc. unfold search_by_category, get, cats_of in *. simpl.
  rewrite Hs, lookup_insert_eq, Hc.
  destruct (store !! u) as [[]|]; by simplify_eq/=.
Qed.

Lemma search_other_user u u' c' self store x :
  u' <> u ->
  memory_store self = JObj store ->
  search_by_category u' c' (with_store self (JObj (<[u := x]> store)))
  = search_by_category u' c' self.
Proof.
  intros Hne Hs. unfold search_by_category, get. simpl.
  by rewrite Hs, lookup_insert_ne.
Qed.

Lemma add_frame u c v u' c' self w :
  (u', c') <> (u, c) ->
  search_by_category u' c' (add u c v self w).1.2 = search_by_category u' c' self.
Proof.
  intros Hne.
  destruct (add_store u c v self w) as [->|(store & cats & cats' & Hs & Hu & -> & Hc)];
    [done|].
  destruct (decide (u' = u)) as [->|Hu'].
  - apply (search_replaced _ _ _ _ cats); [done..|]. apply Hc. congruence.
  - by apply search_other_user.
Qed.

Lemma run_adds_frame calls u' c' self w :
  Forall (fun call => (u', c') <> call.1) calls ->
  search_by_category u' c' (run_adds calls self w).1 = search_by_category u' c' self.
Proof.
  revert self w. induction calls as [|[[u c] v] calls IH]; intros self w Hall; [done|].
  apply Forall_cons in Hall as [Hne Hall]. simpl in *.
  pose proof (add_frame u c v u' c' self w Hne) as Hframe.
  destruct (add u c v self w) as [[r self'] w']. simpl in *.
  by rewrite IH.
Qed.

(** C7. User and category isolation: a sequence of [add] calls, none of
    them for (user', category'), leaves [search_by_category user' category']
    as it was, whatever the calls return or raise; one call for another
    pair is the sequence of length one, calls for other users are calls for
    other pairs. On a store that started empty the search therefore still
    returns the empty list. *)
Theorem add_isolation (calls : list (string * string * string))
    (user' category' : string) (self : SimpleMemory.t) (w : disk) :
  Forall (fun call => (user', category') <> call.1) calls ->
  search_by_category user' category' (run_adds calls self w).1
  = search_by_category user' category' self
  /\ (memory_store self = JObj ∅ ->
      search_by_category user' category' (run_adds calls self w).1 = Ok (JArr [])).
Proof.
  intros Hall. rewrite run_adds_frame by done. split; [done|].
  intros Hs. unfold search_by_category, get. by rewrite Hs, lookup_empty.
Qed.

Lemma add_isolation_witness :
  search_by_category "Chris" "hotel"
    (run_adds [("Chris", "food", "sushi"); ("Dana", "hotel", "quiet")] fresh blank).1
  = search_by_category "Chris" "hotel" fresh
  /\ (memory_store fresh = JObj ∅ ->
      search_by_category "Chris" "hotel"
        (run_adds [("Chris", "food", "sushi"); ("Dana", "hotel", "quiet")] fresh blank).1
      = Ok (JArr [])).
Proof.
  apply (add_isolation [("Chris", "food", "sushi"); ("Dana", "hotel", "quiet")]
           "Chris" "hotel" fresh blank).
  repeat constructor; simpl; discriminate.
Defined.

(** *** What is on disk after [add] *)

Lemma save_ok_inv self w w' :
  _save_to_file self w = (Ok tt, w') ->
  files w' = <[filepath self := Wellformed (memory_store self)]> (files w).
Proof.
  unfold _save_to_file.
  destruct (outcomes w) as [|[[]|] later]; intros H; by simplify_eq/=.
Qed.

Lemma restart_in_sync self w : in_sync self w -> __init__ (filepath self) w = Ok self.
Proof. unfold in_sync, __init__. intros ->. by destruct self. Qed.

Lemma init_in_sync path w self : __init__ path w = Ok self -> in_sync self w.
Proof.
  unfold in_sync, __init__.
  destruct (_load_from_file path w) eqn:E; intros H; by simplify_eq/=.
Qed.

Lemma saved_in_sync self w w' : _save_to_file self w = (Ok tt, w') -> in_sync self w'.
Proof.
  intros H%save_ok_inv. unfold in_sync, _load_from_file.
  by rewrite H, lookup_insert_eq.
Qed.

(** The two ways in which [add] returns: the value was found, and nothing
    changed; or it was appended and the store was written. *)
Lemma add_ok_cases u c v self w r self' w' :
  add u c v self w = (Ok r, self', w') ->
  r = true
  /\ ((self' = self /\ w' = w
       /\ exists items, search_by_category u c self = Ok items
                        /\ contains v items = Ok true)
      \/ (_save_to_file self' w = (Ok tt, w')
          /\ exists xs, search_by_category u c self' = Ok (JArr (xs ++ [JStr v])))).
Proof.
  unfold add, setdefault, subscript, search_by_category, get.
  destruct (memory_store self) as [| | | | | |store] eqn:Hs; try discriminate.
  destruct (store !! u) as [um|] eqn:Eu.
  - destruct um as [| | | | | |cats]; try discriminate.
    destruct (cats !! c) as [items|] eqn:Ec; simpl; rewrite ?Ec, ?lookup_insert_eq; simpl.
    + destruct (contains v items) as [[]|] eqn:Ein; [| |discriminate].
      * intros [= <- <- <-]. split; [done|]. left.
        rewrite (insert_id store u) by done. rewrite <- Hs, with_store_same.
        split_and!; [done..|]. exists items. split; [|done].
        destruct items; simplify_eq/=; done.
      * destruct items; try discriminate.
        destruct (_save_to_file _ w) as [[[]|] w1] eqn:Esave; intros [= <- <- <-].
        split; [done|]. right. split; [done|]. simpl.
        rewrite !lookup_insert_eq. eauto.
    + destruct (_save_to_file _ w) as [[[]|] w1] eqn:Esave; intros [= <- <- <-].
      split; [done|]. right. split; [done|]. simpl.
      rewrite !lookup_insert_eq. by exists [].
  - rewrite lookup_empty. simpl. rewrite lookup_insert_eq. simpl.
    destruct (_save_to_file _ w) as [[[]|] w1] eqn:Esave; intros [= <- <- <-].
    split; [done|]. right. split; [done|]. simpl.
    rewrite !lookup_insert_eq. by exists [].
Qed.

(** C6, as amended. Restart durability: when the store in memory is the
    one a restart would load (as it is after [__init__] and after every
    write that went through), a call of [add] that returns leaves a disk
    from which a restart finds the value under (user, category); memory
    and disk agree again afterwards. *)
Theorem add_durable_in_sync (user category value : string)
    (self self' : SimpleMemory.t) (w w' : disk) :
  in_sync self w ->
  add user category value self w = (Ok true, self', w') ->
  found_after_restart (filepath self') user category value w'
  /\ in_sync self' w'.
Proof.
  intros Hsync Hadd.
  destruct (add_ok_cases _ _ _ _ _ _ _ _ Hadd)
    as [_ [(-> & -> & items & Hsearch & Hin)|(Hsave & xs & Hsearch)]].
  - split; [|done]. exists self, items. by rewrite restart_in_sync.
  - pose proof (saved_in_sync _ _ _ Hsave) as Hsync'. split; [|done].
    exists self', (JArr (xs ++ [JStr value])). rewrite restart_in_sync by done.
    split_and!; [done..|]. simpl.
    by rewrite existsb_app; simpl; rewrite String.eqb_refl, orb_true_r.
Qed.

Lemma add_durable_in_sync_witness :
  found_after_restart (filepath first_add.1.2) "Chris" "food" "sushi" first_add.2
  /\ in_sync first_add.1.2 first_add.2.
Proof.
  apply (add_durable_in_sync "Chris" "food" "sushi" fresh first_add.1.2 blank first_add.2);
    vm_compute; reflexivity.
Defined.

(** C6, as stated, fails: the first call finds the disk refusing the
    write and raises, but the value stays in memory; the second call, on a
    disk that would take the write, finds the value, writes nothing and
    returns [True]; a restart then loads a store without the value. *)
Lemma retried_add_not_durable :
  refused_add.1.1 = Raise OSError
  /\ accepts_write refused_add.2 = true
  /\ (add "Chris" "food" "sushi" refused_add.1.2 refused_add.2).1.1 = Ok true
  /\ ~ durable refused_add.1.2 refused_add.2.
Proof.
  split_and!; [vm_compute; reflexivity..|].
  intros Hd.
  destruct (Hd "Chris" "food" "sushi"
              (add "Chris" "food" "sushi" refused_add.1.2 refused_add.2).1.2
              (add "Chris" "food" "sushi" refused_add.1.2 refused_add.2).2)
    as (reloaded & results & Hinit & Hsearch & Hin).
  { vm_compute. reflexivity. }
  vm_compute in Hinit. injection Hinit as <-.
  vm_compute in Hsearch. injection Hsearch as <-.
  vm_compute in Hin. discriminate.
Qed.

(** *** A write that fails *)

Lemma save_refused self w :
  accepts_write w = false -> (_save_to_file self w).1 = Raise OSError.
Proof.
  unfold accepts_write, _save_to_file.
  by destruct (outcomes w) as [|[[]|] later].
Qed.

Lemma save_counts self w : flushes (_save_to_file self w).2 = S (flushes w).
Proof. unfold _save_to_file. by destruct (outcomes w) as [|[[]|] later]. Qed.

Ltac by_the_write :=
  match goal with
  | |- context [_save_to_file ?s ?w] =>
      right; exists s; destruct (_save_to_file s w) as [[[]|?] ?]; cbn [fst snd]; eauto 7
  end.

(** [add] either changes nothing at all, in memory or on disk, or stops
    with what its one write gave, the new store in memory. *)
Lemma add_flushes u c v self w :
  ((add u c v self w).1.2 = self /\ (add u c v self w).2 = w)
  \/ exists self',
       (add u c v self w).1.2 = self'
       /\ (add u c v self w).2 = (_save_to_file self' w).2
       /\ ((add u c v self w).1.1 = Ok true /\ (_save_to_file self' w).1 = Ok tt
           \/ exists e, (add u c v self w).1.1 = Raise e
                        /\ (_save_to_file self' w).1 = Raise e).
Proof.
  unfold add, setdefault, subscript.
  destruct (memory_store self) as [| | | | | |store] eqn:Hs; try (by left).
  destruct (store !! u) as [[| | | | | |cats]|] eqn:Eu;
    try (left; cbn [fst snd]; by rewrite <- Hs, with_store_same).
  - destruct (cats !! c) as [items|] eqn:Ec; cbn [fst snd];
      rewrite ?Ec, ?lookup_insert_eq; cbn [fst snd].
    + assert (with_store self (JObj (<[u := JObj cats]> store)) = self) as Hsame.
      { rewrite (insert_id store u) by done. by rewrite <- Hs, with_store_same. }
      destruct (contains v items) as [[]|]; try (left; by rewrite Hsame).
      destruct items; try (left; by rewrite Hsame).
      by_the_write.
    + by_the_write.
  - rewrite lookup_empty. cbn [fst snd]. rewrite lookup_insert_eq. cbn [fst snd].
    by_the_write.
Qed.

Lemma add_writes_at_most_once u c v self w :
  flushes (add u c v self w).2 <= S (flushes w).
Proof.
  destruct (add_flushes u c v self w) as [[_ ->]|(self' & _ & -> & _)]; [lia|].
  by rewrite save_counts.
Qed.

(** On a disk that takes the write, memory and disk still agree after
    [add], whatever it returns or raises; so they do after any number of
    calls on a disk that takes every write. *)
Lemma accepted_add_in_sync u c v self w :
  in_sync self w -> accepts_write w = true ->
  in_sync (add u c v self w).1.2 (add u c v self w).2.
Proof.
  intros Hsync Hw.
  destruct (add_flushes u c v self w) as [[-> ->]|(self' & -> & -> & _)]; [done|].
  destruct (save_accepted self' w Hw) as (w' & Hsave & _).
  rewrite Hsave. by apply (saved_in_sync self' w).
Qed.

Lemma add_outcomes u c v self w :
  Forall (fun o => o = None) (outcomes w) ->
  Forall (fun o => o = None) (outcomes (add u c v self w).2).
Proof.
  intros Hall.
  destruct (add_flushes u c v self w) as [[_ ->]|(self' & _ & -> & _)]; [done|].
  unfold _save_to_file. destruct Hall as [|[[]|] later Ho Hall]; by simplify_eq/=.
Qed.

Lemma run_adds_in_sync calls self w :
  in_sync self w ->
  Forall (fun o => o = None) (outcomes w) ->
  in_sync (run_adds calls self w).1 (run_adds calls self w).2.
Proof.
  revert self w. induction calls as [|[[u c] v] calls IH]; intros self w Hsync Hall; [done|].
  cbn [run_adds].
  assert (accepts_write w = true) as Hw.
  { unfold accepts_write. destruct Hall as [|[f|] later Ho _]; by simplify_eq/=. }
  pose proof (accepted_add_in_sync u c v self w Hsync Hw) as Hsync'.
  pose proof (add_outcomes u c v self w Hall) as Hall'.
  destruct (add u c v self w) as [[r self'] w']. by apply IH.
Qed.

(** C2, as amended. Storage write failure: when [save_user_preference]
    does write the store and the disk refuses that write, the call returns
    no tool result at all: the [OSError] of the write leaves the function. *)
Theorem save_preference_write_failure (category preference : string)
    (p : process) (w : disk) :
  accepts_write w = false ->
  flushes (save_user_preference category preference p w).2 <> flushes w ->
  (save_user_preference category preference p w).1.1 = Raise OSError.
Proof.
  intros Hw Hflushed. unfold save_user_preference in *.
  set (user_id := getattr_user_id (save_user_preference_user_id p)) in *.
  destruct (add_flushes user_id category preference (persistent_data p) w)
    as [[_ Hdisk]|(self0 & _ & Hdisk & Hresult)];
    destruct (add user_id category preference (persistent_data p) w) as [[r self'] w'];
    cbn [fst snd] in *.
  - (* nothing was written *)
    destruct Hflushed. destruct r; cbn [snd]; by rewrite Hdisk.
  - (* the write was refused, and its exception is the one of [add] *)
    pose proof (save_refused self0 w Hw) as Hrefused.
    destruct Hresult as [[_ Hok]|(e & -> & He)]; [congruence|].
    cbn [fst]. congruence.
Qed.

Lemma save_preference_write_failure_witness :
  (save_user_preference "food" "sushi" started refusing).1.1 = Raise OSError.
Proof.
  apply (save_preference_write_failure "food" "sushi" started refusing);
    [reflexivity | vm_compute; discriminate].
Defined.

(** C2, as stated, fails: on a disk that refuses the write the call gives
    back no result with status "error"; it raises. *)
Lemma save_preference_reports_no_error :
  accepts_write refusing = false
  /\ flushes (save_user_preference "food" "sushi" started refusing).2 = 1
  /\ (save_user_preference "food" "sushi" started refusing).1.1 = Raise OSError
  /\ ~ reports_error "food" "sushi" started refusing.
Proof.
  split_and!; [reflexivity..|].
  intros (r & p' & w' & H & _). vm_compute in H. discriminate.
Qed.

(** *** Loading *)

(** C3, as amended. Corrupt-storage resilience: when the backing file is
    absent, or holds text that [json.load] rejects as no JSON, or holds
    text that [json.load] decodes, loading does not fail the caller, and
    the store starts on what was loaded. There is no file: the empty
    store. The text is not JSON: the empty store as well, the history being
    lost, so that every search on the new store gives the empty list. The
    text is JSON: the decoded value as it is, of whatever structure. *)
Theorem load_recovers (path : string) (w : disk) :
  files w !! path = None
  \/ files w !! path = Some Malformed
  \/ (exists j, files w !! path = Some (Wellformed j)) ->
  exists v self,
    _load_from_file path w = Ok v
    /\ __init__ path w = Ok self
    /\ filepath self = path
    /\ memory_store self = v
    /\ (files w !! path = None -> v = JObj ∅)
    /\ (files w !! path = Some Malformed -> v = JObj ∅)
    /\ (forall j, files w !! path = Some (Wellformed j) -> v = j)
    /\ (files w !! path = None \/ files w !! path = Some Malformed ->
        forall user category, search_by_category user category self = Ok (JArr [])).
Proof.
  intros Hfile. unfold __init__, _load_from_file.
  assert (forall self, memory_store self = JObj ∅ ->
            forall user category, search_by_category user category self = Ok (JArr []))
    as Hempty.
  { intros self Hs user category. unfold search_by_category, get.
    by rewrite Hs, !lookup_empty. }
  destruct Hfile as [Hfile|[Hfile|[j Hfile]]]; rewrite Hfile.
  - exists (JObj ∅), (Make path (JObj ∅)).
    split_and!; try done; intros; by apply Hempty.
  - exists (JObj ∅), (Make path (JObj ∅)).
    split_and!; try done; intros; by apply Hempty.
  - exists j, (Make path j).
    split_and!; try done; [by intros j' [= ->]|by intros [|]].
Qed.

Lemma load_recovers_witness :
  exists v self,
    _load_from_file MEMORY_FILE refused_add.2 = Ok v
    /\ __init__ MEMORY_FILE refused_add.2 = Ok self
    /\ filepath self = MEMORY_FILE
    /\ memory_store self = v
    /\ (files refused_add.2 !! MEMORY_FILE = None -> v = JObj ∅)
    /\ (files refused_add.2 !! MEMORY_FILE = Some Malformed -> v = JObj ∅)
    /\ (forall j, files refused_add.2 !! MEMORY_FILE = Some (Wellformed j) -> v = j)
    /\ (files refused_add.2 !! MEMORY_FILE = None
        \/ files refused_add.2 !! MEMORY_FILE = Some Malformed ->
        forall user category, search_by_category user category self = Ok (JArr [])).
Proof. apply (load_recovers MEMORY_FILE refused_add.2). left. vm_compute. reflexivity. Defined.

(** C3, as stated, fails twice over. A file that holds a JSON list is not
    of the expected structure, and loading returns the list, not the empty
    store. A file that cannot be opened is a state of the backing document
    too, and on it loading raises the [OSError] of [open]. *)
Lemma load_returns_any_json :
  _load_from_file MEMORY_FILE holds_a_list = Ok (JArr [JStr "sushi"])
  /\ ~ load_always_recovers MEMORY_FILE holds_a_list
  /\ _load_from_file MEMORY_FILE locked = Raise OSError
  /\ ~ load_always_recovers MEMORY_FILE locked.
Proof.
  split_and!; [reflexivity| |reflexivity|].
  - intros (v & Hload & _ & Hempty). vm_compute in Hload. injection Hload as <-.
    discriminate (Hempty (Wellformed (JArr [JStr "sushi"]))); [reflexivity|].
    intros (v & [= <-] & Hshape). discriminate.
  - intros (v & Hload & _). vm_compute in Hload. discriminate.
Qed.

(** *** The user a tool acts for *)

Lemma search_result_has_len u c self results :
  search_by_category u c self = Ok results -> exists n, len results = Ok n.
Proof.
  unfold search_by_category.
  destruct (memory_store self) as [| | | | | |store]; try discriminate.
  destruct (get u (JObj ∅) store) as [| | | | | |cats]; try discriminate.
  destruct (len (get c (JArr []) cats)) as [n|e] eqn:Hlen; intros [= <-]. by exists n.
Qed.

(** C9. Default user: while no turn has set the [user_id] attribute of a
    memory tool, [save_user_preference] is the call of [add] for the user
    "Chris" (same store, same disk, success for [True], the same exception
    otherwise), and [retrieve_user_preferences] reads what
    [search_by_category] finds for the user "Chris" in the store: it
    returns that result with its length, and raises what the search
    raises. *)
Theorem unbound_user_is_Chris (category preference : string) (p : process) (w : disk) :
  save_user_preference_user_id p = None ->
  retrieve_user_preferences_user_id p = None ->
  let saved := save_user_preference category preference p w in
  let added := add "Chris" category preference (persistent_data p) w in
  let searched := search_by_category "Chris" category (persistent_data p) in
  persistent_data saved.1.2 = added.1.2
  /\ saved.2 = added.2
  /\ (forall b, added.1.1 = Ok b -> exists message, saved.1.1 = Ok (Saved "success" message))
  /\ (forall e, added.1.1 = Raise e -> saved.1.1 = Raise e)
  /\ (forall results, searched = Ok results ->
        exists n, len results = Ok n
                  /\ retrieve_user_preferences category p = Ok (Retrieved "success" results n))
  /\ (forall e, searched = Raise e -> retrieve_user_preferences category p = Raise e).
Proof.
  intros Hsave Hretrieve. unfold save_user_preference, retrieve_user_preferences.
  rewrite Hsave, Hretrieve. cbn [getattr_user_id]. fold USER_ID. cbv zeta.
  split_and!.
  - by destruct (add USER_ID category preference (persistent_data p) w) as [[[b|e] self'] w'].
  - by destruct (add USER_ID category preference (persistent_data p) w) as [[[b|e] self'] w'].
  - destruct (add USER_ID category preference (persistent_data p) w) as [[[b|e] self'] w'];
      cbn [fst snd]; [eauto|discriminate].
  - destruct (add USER_ID category preference (persistent_data p) w) as [[[b|e] self'] w'];
      cbn [fst snd]; [discriminate|]. by intros e0 [= ->].
  - intros results Hsearch.
    destruct (search_result_has_len _ _ _ _ Hsearch) as [n Hlen].
    exists n. by rewrite Hsearch, Hlen.
  - intros e Hsearch. by rewrite Hsearch.
Qed.

Lemma unbound_user_is_Chris_witness :
  let saved := save_user_preference "food" "ramen" (Process first_add.1.2 None None) first_add.2 in
  let added := add "Chris" "food" "ramen" first_add.1.2 first_add.2 in
  let searched := search_by_category "Chris" "food" first_add.1.2 in
  persistent_data saved.1.2 = added.1.2
  /\ saved.2 = added.2
  /\ (forall b, added.1.1 = Ok b -> exists message, saved.1.1 = Ok (Saved "success" message))
  /\ (forall e, added.1.1 = Raise e -> saved.1.1 = Raise e)
  /\ (forall results, searched = Ok results ->
        exists n, len results = Ok n
                  /\ retrieve_user_preferences "food" (Process first_add.1.2 None None)
                     = Ok (Retrieved "success" results n))
  /\ (forall e, searched = Raise e ->
        retrieve_user_preferences "food" (Process first_add.1.2 None None) = Raise e).
Proof.
  apply (unbound_user_is_Chris "food" "ramen" (Process first_add.1.2 None None) first_add.2);
    reflexivity.
Defined.

(** *** The turn *)

(** The turn returns the text of the first part of the first event that
    passes the test of the loop, be it a string or [None]. *)
Lemma first_final_response_found before event later c part rest :
  Forall (fun event => carries_final_response event = false) before ->
  is_final_response event = true ->
  content event = Some c ->
  parts c = Some (part :: rest) ->
  first_final_response (before ++ event :: later) = text part.
Proof.
  intros Hbefore Hfinal Hcontent Hparts.
  induction Hbefore as [|skipped before Hskipped _ IH].
  - cbn [app first_final_response]. by rewrite Hfinal, Hcontent, Hparts.
  - unfold carries_final_response in Hskipped. cbn [app first_final_response].
    destruct (is_final_response skipped); [|done].
    destruct (content skipped) as [c'|]; [|done].
    by destruct (parts c') as [[|part' rest']|].
Qed.

(** C8, as amended. No-final-response fallback: when the events of the
    turn end and none of them was a final response carrying a part,
    [call_agent_async] returns the string "No response received.". *)
Theorem no_final_response_fallback (events : list Event)
    (query user_id session_id : string) (p : process) :
  Forall (fun event => carries_final_response event = false) events ->
  (call_agent_async events query user_id session_id p).1 = Some "No response received.".
Proof.
  intros Hnone. cbn [call_agent_async fst].
  induction Hnone as [|event later Hevent _ IH]; [reflexivity|].
  unfold carries_final_response in Hevent. cbn [first_final_response].
  destruct (is_final_response event); [|exact IH].
  destruct (content event) as [c|]; [|exact IH].
  by destruct (parts c) as [[|part rest]|].
Qed.

Lemma no_final_response_fallback_witness :
  (call_agent_async
     [ {| is_final_response := false;
          content := Some {| parts := Some [ {| text := None |} ] |} |};
       {| is_final_response := true; content := None |} ]
     "Find me a flight to Paris" "Chris" "session_001" started).1
  = Some "No response received.".
Proof.
  apply no_final_response_fallback. repeat constructor.
Defined.

(** C8, as stated, fails: a turn whose final event has a part without
    text has produced no final textual response, and [call_agent_async]
    returns the text of that part, which is [None], not the string. *)
Lemma final_without_text_returns_None :
  Forall (fun event => final_textual_response event = false) final_without_text
  /\ (call_agent_async final_without_text "Flights to Paris" "Chris" "session_001" started).1
     = None
  /\ ~ falls_back final_without_text.
Proof.
  assert (Forall (fun event => final_textual_response event = false) final_without_text)
    as Hnone by (repeat constructor).
  split_and!; [done|reflexivity|].
  intros Hclaim.
  discriminate (Hclaim Hnone "Flights to Paris" "Chris" "session_001" started).
Qed.

(** ** The flight search *)

Lemma run_bind {A B} (m : Gen A) (f : A -> Gen B) e :
  (m ≫= f) e = f (m e).1 (m e).2.
Proof. unfold mbind, Gen_bind. by destruct (m e). Qed.

Lemma run_ret {A} (a : A) e : (mret a : Gen A) e = (a, e).
Proof. reflexivity. Qed.

(** [find_flights] step by step: the line printed, the offer of the
    preferred airline if there is one, the number of further offers, and
    these offers. *)
Lemma find_flights_run d t prefs e :
  let e0 := (print (FindFlightsCalled d t prefs) e).2 in
  let first :=
    match preferred_airline prefs with
    | Some a => ([(preferred_offer a e0).1], (preferred_offer a e0).2)
    | None => ([], e0)
    end in
  let n := randint 1 2 first.2 in
  let others := standard_offers (N.to_nat n.1) (preferred_airline prefs) n.2 in
  find_flights d t prefs e = (Found "success" (first.1 ++ others.1), others.2).
Proof.
  intros e0 first n others. unfold find_flights.
  rewrite run_bind. fold e0.
  rewrite run_bind.
  assert ((match preferred_airline prefs with
           | Some a => preferred_offer a ≫= (fun offer => mret [offer])
           | None => mret []
           end) e0 = first) as ->.
  { unfold first. destruct (preferred_airline prefs); [|done].
    by rewrite run_bind, run_ret. }
  rewrite run_bind. fold n. rewrite run_bind. fold others. by rewrite run_ret.
Qed.

(** *** Which airline is preferred *)

Lemma find_first {A} (f : A -> bool) (l : list A) a :
  find f l = Some a ->
  exists j, l !! j = Some a /\ f a = true
            /\ forall j' a', j' < j -> l !! j' = Some a' -> f a' = false.
Proof.
  induction l as [|x l IH]; [discriminate|]. cbn [find].
  destruct (f x) eqn:Ex.
  - intros [= ->]. exists 0. split_and!; [done..|]. intros; lia.
  - intros (j & Hj & Ha & Hbefore)%IH. exists (S j). split_and!; [done..|].
    intros [|j'] a' Hlt Ha'; simplify_eq/=; [done|].
    apply (Hbefore j'); [lia|done].
Qed.

Lemma scan_first_match prefs a : scan prefs = Some a -> first_match prefs a.
Proof.
  induction prefs as [|pref rest IH]; [discriminate|]. cbn [scan].
  destruct (find (mentions pref) all_airlines) as [b|] eqn:Efind.
  - intros [= ->]. apply find_first in Efind as (j & Hj & Ha & Hbefore).
    exists 0, j, pref. split_and!; [done..| |done]. intros; lia.
  - intros (i & j & pref' & Hi & Hj & Hm & Hprefs & Hcat)%IH.
    exists (S i), j, pref'. split_and!; [done..| |done].
    intros [|i'] p a' Hlt Hp Ha'.
    + injection Hp as <-. by apply (find_none _ _ Efind).
    + apply (Hprefs i'); [lia|done..].
Qed.

Lemma scan_none prefs :
  scan prefs = None ->
  forall pref a, In pref prefs -> In a all_airlines -> mentions pref a = false.
Proof.
  induction prefs as [|p rest IH]; [by intros _ pref a []|]. cbn [scan].
  destruct (find (mentions p) all_airlines) as [b|] eqn:Efind; [discriminate|].
  intros Hrest pref a [<-|Hin] Ha; [by apply (find_none _ _ Efind)|by apply IH].
Qed.

Lemma scan_finds prefs pref a :
  In pref prefs -> In a all_airlines -> mentions pref a = true ->
  exists b, scan prefs = Some b.
Proof.
  intros Hp Ha Hm. destruct (scan prefs) as [b|] eqn:E; [by eexists|].
  rewrite (scan_none _ E pref a Hp Ha) in Hm. discriminate.
Qed.

(** *** What the offers look like *)

Ltac run_gen := repeat (rewrite run_bind; cbv beta); rewrite ?run_ret.

Lemma preferred_offer_marked a e :
  airline (preferred_offer a e).1 = a /\ notes (preferred_offer a e).1 = MATCHES.
Proof. unfold preferred_offer. run_gen. done. Qed.

Lemma standard_offer_marked p e : notes (standard_offer p e).1 = STANDARD.
Proof. unfold standard_offer. run_gen. done. Qed.

Lemma standard_offers_S n p e :
  standard_offers (S n) p e
  = ((standard_offer p e).1 :: (standard_offers n p (standard_offer p e).2).1,
     (standard_offers n p (standard_offer p e).2).2).
Proof. cbn [standard_offers]. by run_gen. Qed.

Lemma standard_offers_length n p e : length (standard_offers n p e).1 = n.
Proof.
  revert e. induction n as [|n IH]; intros e; [done|].
  rewrite standard_offers_S. cbn [fst length]. by rewrite IH.
Qed.

Lemma standard_offers_marked n p e :
  Forall (fun o => notes o = STANDARD) (standard_offers n p e).1.
Proof.
  revert e. induction n as [|n IH]; intros e; [by constructor|].
  rewrite standard_offers_S. constructor; [apply standard_offer_marked|apply IH].
Qed.

Lemma randbelow_lt n e : (0 < n)%N -> ((randbelow n e).1 < n)%N.
Proof. intros Hn. cbn [randbelow fst]. apply N.mod_lt. lia. Qed.

Lemma randint_range a b e :
  (a <= b)%N -> (a <= (randint a b e).1 <= b)%N.
Proof.
  intros Hab. unfold randint. run_gen. cbn [fst].
  pose proof (randbelow_lt (b - a + 1) e). lia.
Qed.

Lemma one_or_two e : N.to_nat (randint 1 2 e).1 = 1 \/ N.to_nat (randint 1 2 e).1 = 2.
Proof. pose proof (randint_range 1 2 e). lia. Qed.

(** C4. Preference-biased generation. When some preference of the list
    mentions a catalogue airline (its lower-cased name is a substring of
    the lower-cased preference), the airline of the first match, in list
    order then catalogue order, is that of the first offer returned, which
    carries the note of a match, and two or three offers are returned.
    When no preference mentions a catalogue airline (or none was given),
    no offer carries that note and one or two offers are returned. *)
Theorem preference_biased_generation (destination departure_date : string)
    (preferences : option (list string)) (e : env) :
  let found := flights (find_flights destination departure_date preferences e).1 in
  (forall prefs pref a,
      preferences = Some prefs ->
      In pref prefs -> In a all_airlines -> mentions pref a = true ->
      exists preferred first rest,
        first_match prefs preferred
        /\ found = first :: rest
        /\ airline first = preferred
        /\ notes first = MATCHES
        /\ 2 <= length found <= 3)
  /\ ((forall prefs pref a,
          preferences = Some prefs ->
          In pref prefs -> In a all_airlines -> mentions pref a = false) ->
      Forall (fun o => notes o <> MATCHES) found
      /\ 1 <= length found <= 2).
Proof.
  intros found. subst found. rewrite find_flights_run. cbn [fst flights].
  set (e0 := (print _ e).2). split.
  - intros prefs pref a -> Hpref Ha Hm.
    destruct (scan_finds prefs pref a Hpref Ha Hm) as [b Hb].
    cbn [preferred_airline]. rewrite Hb. cbn [fst snd].
    destruct (preferred_offer_marked b e0) as [Hairline Hnotes].
    eexists b, _, _. split_and!; [by apply scan_first_match|reflexivity|done..| |];
      cbn [app length]; rewrite standard_offers_length;
      destruct (one_or_two (preferred_offer b e0).2); lia.
  - intros Hnone.
    assert (preferred_airline preferences = None) as ->.
    { destruct preferences as [prefs|]; [|done]. cbn [preferred_airline].
      destruct (scan prefs) as [b|] eqn:E; [|done].
      destruct (scan_first_match _ _ E) as (i & j & pref & Hi & Hj & Hm & _).
      rewrite (Hnone prefs pref b) in Hm; [discriminate|done|..].
      - apply list_elem_of_In, list_elem_of_lookup. eauto.
      - apply list_elem_of_In, list_elem_of_lookup. eauto. }
    cbn [fst snd app]. split.
    + eapply Forall_impl; [apply standard_offers_marked|].
      intros o ->. discriminate.
    + rewrite standard_offers_length. destruct (one_or_two e0); lia.
Qed.

Lemma preference_biased_generation_witness :
  exists preferred first rest,
    first_match ["I love Delta"] preferred
    /\ flights (find_flights "Paris" "2025-01-01" (Some ["I love Delta"])
                  (quiet (fun _ => 0%N) (fun _ => 0%N))).1 = first :: rest
    /\ airline first = preferred
    /\ notes first = MATCHES
    /\ 2 <= length (flights (find_flights "Paris" "2025-01-01" (Some ["I love Delta"])
                               (quiet (fun _ => 0%N) (fun _ => 0%N))).1) <= 3.
Proof.
  apply (proj1 (preference_biased_generation "Paris" "2025-01-01" (Some ["I love Delta"])
                  (quiet (fun _ => 0%N) (fun _ => 0%N)))
           ["I love Delta"] "I love Delta" "Delta");
    [reflexivity | by left | by left | vm_compute; reflexivity].
Defined.

(** *** The ranges of the fields *)

Lemma three_digits n : (100 <= n <= 999)%N -> String.length (dec n) = 3.
Proof.
  intros Hn.
  assert (forallb (fun k => Nat.eqb (String.length (dec (N.of_nat k))) 3) (seq 100 900) = true)
    as Hall by (vm_compute; reflexivity).
  rewrite forallb_forall in Hall.
  specialize (Hall (N.to_nat n)). rewrite N2Nat.id in Hall.
  apply Nat.eqb_eq, Hall, in_seq. lia.
Qed.

Lemma read_randint a b e : read (randint a b e).2 = read e.
Proof. reflexivity. Qed.

Lemma clock_randint a b e : clock (randint a b e).2 = clock e.
Proof. reflexivity. Qed.

Lemma offset_in_randint lo hi e :
  (lo <= hi)%N -> offset_in true lo hi (randint lo hi e).1.
Proof. intros H. unfold offset_in. pose proof (randint_range lo hi e H). lia. Qed.

Lemma at_offset_intro closed lo hi e e' k h :
  read e <= k -> k < read e' -> offset_in closed lo hi h ->
  at_offset closed lo hi e e' (strftime_HM (clock e k + hours h)).
Proof. intros. exists k, h. split_and!; done. Qed.

Lemma code_two_letters a :
  In a all_airlines -> String.length (upper (substring 0 2 a)) = 2.
Proof. intros Ha. repeat (destruct Ha as [<-|Ha]; [reflexivity|]). destruct Ha. Qed.

Lemma numbered_intro a n o :
  In a all_airlines ->
  (100 <= n <= 999)%N ->
  airline o = a ->
  flight_number o = upper (substring 0 2 a) ++ dec n ->
  numbered o.
Proof.
  intros Ha Hn <- Hf. exists n. split; [done|].
  split; [by apply three_digits|]. split; [by apply code_two_letters|done].
Qed.

(** The airline of an offer is one of the catalogue. *)
Lemma scan_in_catalogue prefs a : scan prefs = Some a -> In a all_airlines.
Proof.
  induction prefs as [|pref rest IH]; [discriminate|]. cbn [scan].
  destruct (find (mentions pref) all_airlines) as [b|] eqn:Efind; [|exact IH].
  intros [= <-]. by apply find_some in Efind as [? _].
Qed.

Lemma others_remain preferred : List.filter (differs preferred) all_airlines <> [].
Proof.
  destruct preferred as [p|]; [|discriminate].
  unfold all_airlines. cbn [List.filter differs].
  destruct (String.eqb_spec "Delta" p) as [<-|_]; discriminate.
Qed.

Lemma choice_in seq e : seq <> [] -> In (choice seq e).1 seq.
Proof.
  intros Hseq. unfold choice. run_gen. cbn [fst]. apply nth_In.
  assert (0 < N.of_nat (length seq))%N as Hpos by (destruct seq; [done|cbn; lia]).
  pose proof (randbelow_lt _ e Hpos). lia.
Qed.

Lemma chosen_in_catalogue preferred e :
  In (choice (List.filter (differs preferred) all_airlines) e).1 all_airlines.
Proof.
  pose proof (choice_in _ e (others_remain preferred)) as Hin.
  by apply filter_In in Hin as [? _].
Qed.

Lemma priced_intro lo hi n o :
  (lo <= n <= hi)%N -> price o = dec n ++ " EUR" -> priced lo hi o.
Proof. intros. by exists n. Qed.

Lemma preferred_offer_ranges a e :
  In a all_airlines ->
  in_ranges true e (preferred_offer a e).2 (preferred_offer a e).1
  /\ clock (preferred_offer a e).2 = clock e
  /\ read (preferred_offer a e).2 = S (S (read e)).
Proof.
  intros Ha. unfold preferred_offer. run_gen. cbn [fst snd].
  split; [|split; reflexivity].
  split.
  - eapply numbered_intro; [exact Ha| |reflexivity..]. apply randint_range. lia.
  - left. split; [reflexivity|]. split; [|split].
    + apply (at_offset_intro true 2 5 e _ (read e));
        [lia|change (read e < S (S (read e))); lia|].
      apply offset_in_randint. lia.
    + apply (at_offset_intro true 10 14 e _ (S (read e)));
        [lia|change (S (read e) < S (S (read e))); lia|].
      apply offset_in_randint. lia.
    + eapply priced_intro; [|reflexivity]. apply randint_range. lia.
Qed.

Lemma standard_offer_ranges p e :
  in_ranges true e (standard_offer p e).2 (standard_offer p e).1
  /\ clock (standard_offer p e).2 = clock e
  /\ read (standard_offer p e).2 = S (S (read e)).
Proof.
  unfold standard_offer. run_gen. cbn [fst snd].
  split; [|split; reflexivity].
  split.
  - eapply numbered_intro; [apply chosen_in_catalogue| |reflexivity..].
    apply randint_range. lia.
  - right. split; [reflexivity|]. split; [|split].
    + apply (at_offset_intro true 2 12 e _ (read e));
        [lia|change (read e < S (S (read e))); lia|].
      apply offset_in_randint. lia.
    + apply (at_offset_intro true 14 20 e _ (S (read e)));
        [lia|change (S (read e) < S (S (read e))); lia|].
      apply offset_in_randint. lia.
    + eapply priced_intro; [|reflexivity]. apply randint_range. lia.
Qed.

(** Readings taken between two states of the environment were taken
    between any earlier and any later state. *)
Lemma at_offset_mono closed lo hi e1 e1' e e' time :
  clock e1 = clock e -> read e <= read e1 -> read e1' <= read e' ->
  at_offset closed lo hi e1 e1' time -> at_offset closed lo hi e e' time.
Proof.
  intros Hclock Hlo Hhi (k & h & Hk & Hh & ->). exists k, h.
  rewrite Hclock. split_and!; [lia..|done|done].
Qed.

Lemma in_ranges_mono closed e1 e1' e e' o :
  clock e1 = clock e -> read e <= read e1 -> read e1' <= read e' ->
  in_ranges closed e1 e1' o -> in_ranges closed e e' o.
Proof.
  intros Hclock Hlo Hhi [Hnum Hcases]. split; [done|].
  destruct Hcases as [(Hn & Hd & Ha & Hp)|(Hn & Hd & Ha & Hp)]; [left|right];
    (split_and!; [done| | |done]); by eapply at_offset_mono.
Qed.

Lemma standard_offers_ranges n p e :
  Forall (in_ranges true e (standard_offers n p e).2) (standard_offers n p e).1
  /\ clock (standard_offers n p e).2 = clock e
  /\ read e <= read (standard_offers n p e).2.
Proof.
  revert e. induction n as [|n IH]; intros e.
  { split; [constructor|]. split; [reflexivity|]. cbn. lia. }
  rewrite standard_offers_S. cbn [fst snd].
  destruct (standard_offer_ranges p e) as (Hhead & Hclock & Hread).
  destruct (IH (standard_offer p e).2) as (Htail & Hclock' & Hread').
  split; [|split; [congruence|lia]].
  constructor.
  - eapply in_ranges_mono; [reflexivity| |exact Hread'|exact Hhead]. lia.
  - eapply Forall_impl; [exact Htail|]. intros o.
    apply in_ranges_mono; [done|lia|lia].
Qed.

(** C5, as amended. Generated-offer field ranges, with both ends of every
    range of hours included: each offer has as flight number the first two
    letters of its airline in capitals followed by a three-digit number
    from 100 to 999; the offer of the preferred airline shows a departure
    2 to 5 hours and an arrival 10 to 14 hours after a reading of the clock
    taken during the call, and a price from 800 to 1800; each standard
    offer shows a departure 2 to 12 hours and an arrival 14 to 20 hours
    after such a reading, and a price from 400 to 1500. *)
Theorem offers_in_closed_ranges (destination departure_date : string)
    (preferences : option (list string)) (e : env) :
  Forall (in_ranges true e (find_flights destination departure_date preferences e).2)
         (flights (find_flights destination departure_date preferences e).1).
Proof.
  rewrite find_flights_run. cbn [fst snd flights].
  set (e0 := (print _ e).2).
  assert (clock e0 = clock e /\ read e0 = read e) as [Hc0 Hr0] by done.
  destruct (preferred_airline preferences) as [a|] eqn:Epreferred; cbn [fst snd].
  - assert (In a all_airlines) as Ha.
    { destruct preferences as [prefs|]; [|discriminate].
      by apply (scan_in_catalogue prefs). }
    destruct (preferred_offer_ranges a e0 Ha) as (Hfirst & Hc1 & Hr1).
    set (e1 := (preferred_offer a e0).2) in *.
    destruct (standard_offers_ranges (N.to_nat (randint 1 2 e1).1) (Some a) (randint 1 2 e1).2)
      as (Hothers & Hc2 & Hr2).
    rewrite read_randint in Hr2. rewrite clock_randint in Hc2.
    apply Forall_app. split.
    + constructor; [|constructor].
      eapply in_ranges_mono; [exact Hc0| |exact Hr2|exact Hfirst]. lia.
    + eapply Forall_impl; [exact Hothers|]. intros o.
      apply in_ranges_mono; [rewrite clock_randint; congruence|rewrite read_randint; lia|lia].
  - destruct (standard_offers_ranges (N.to_nat (randint 1 2 e0).1) None (randint 1 2 e0).2)
      as (Hothers & Hc2 & Hr2).
    eapply Forall_impl; [exact Hothers|]. intros o.
    apply in_ranges_mono; [rewrite clock_randint; congruence|rewrite read_randint; lia|lia].
Qed.

(** C5, as stated, fails: [random.randint(2, 5)] can draw 5. With every
    raw draw 3 and the clock at midnight the offer of the preferred
    airline departs at 05:00, which no offset below 5 hours gives. *)
Lemma departure_five_hours_out :
  departure_time <$> head (flights (find_flights "Paris" "2025-01-01"
                                      (Some ["I love Delta"]) threes).1)
  = Some "05:00"
  /\ ~ Forall (in_ranges false threes
                 (find_flights "Paris" "2025-01-01" (Some ["I love Delta"]) threes).2)
              (flights (find_flights "Paris" "2025-01-01" (Some ["I love Delta"]) threes).1).
Proof.
  split; [vm_compute; reflexivity|].
  assert (exists o rest,
             flights (find_flights "Paris" "2025-01-01" (Some ["I love Delta"]) threes).1
             = o :: rest
             /\ notes o = MATCHES /\ departure_time o = "05:00")
    as (o & rest & -> & Hnotes & Hdep).
  { eexists _, _. vm_compute. split_and!; reflexivity. }
  intros Hall. apply Forall_cons in Hall as [[_ Hcases] _].
  destruct Hcases as [(_ & (k & h & _ & [Hlo Hhi] & Htime) & _)|(Hstandard & _)].
  - rewrite Hdep in Htime. change (clock threes k) with 0%N in Htime.
    assert (h = 2 \/ h = 3 \/ h = 4)%N as [->|[->| ->]] by lia;
      vm_compute in Htime; discriminate.
  - rewrite Hnotes in Hstandard. discriminate.
Qed.

(** *** What the result depends on *)

Lemma respects_ret {A} (a : A) : respects (mret a : Gen A).
Proof. intros e1 e2 [Hd Hc]. by rewrite !run_ret. Qed.

Lemma respects_bind {A B} (m : Gen A) (f : A -> Gen B) :
  respects m -> (forall a, respects (f a)) -> respects (m ≫= f).
Proof.
  intros Hm Hf e1 e2 H. rewrite !run_bind.
  destruct (Hm e1 e2 H) as (-> & Hd & Hc). by apply Hf.
Qed.

Lemma respects_randbelow n : respects (randbelow n).
Proof.
  intros e1 e2 [[Hr Hd] [Hc Hread]]. cbn [randbelow fst snd].
  rewrite Hr, Hd. by repeat split.
Qed.

Lemma respects_randint a b : respects (randint a b).
Proof.
  unfold randint. apply respects_bind; [apply respects_randbelow|].
  intros k. apply respects_ret.
Qed.

Lemma respects_choice seq : respects (choice seq).
Proof.
  unfold choice. apply respects_bind; [apply respects_randbelow|].
  intros i. apply respects_ret.
Qed.

Lemma respects_now : respects now.
Proof.
  intros e1 e2 [[Hr Hd] [Hc Hread]]. cbn [now fst snd].
  rewrite Hc, Hread. repeat split; cbn; auto.
Qed.

Ltac respects_steps :=
  repeat first
    [ apply respects_ret
    | apply respects_bind;
      [ first [apply respects_randint | apply respects_now | apply respects_choice] | intros ? ] ].

Lemma respects_preferred_offer a : respects (preferred_offer a).
Proof. unfold preferred_offer. respects_steps. Qed.

Lemma respects_standard_offer p : respects (standard_offer p).
Proof. unfold standard_offer. respects_steps. Qed.

Lemma respects_standard_offers n p : respects (standard_offers n p).
Proof.
  induction n as [|n IH]; cbn [standard_offers]; [apply respects_ret|].
  apply respects_bind; [apply respects_standard_offer|]. intros offer.
  apply respects_bind; [exact IH|]. intros others. apply respects_ret.
Qed.

(** C10, as amended. Input independence of the flight search: two calls
    with the same preferences that get the same random draws and the same
    clock readings return the same result, whatever their destinations and
    departure dates, and the status of the result is "success". *)
Theorem find_flights_ignores_destination
    (destination1 date1 destination2 date2 : string)
    (preferences : option (list string)) (e1 e2 : env) :
  same_draws e1 e2 ->
  same_clock e1 e2 ->
  (find_flights destination1 date1 preferences e1).1
  = (find_flights destination2 date2 preferences e2).1
  /\ status (find_flights destination1 date1 preferences e1).1 = "success".
Proof.
  intros Hd Hc. rewrite !find_flights_run. cbn [fst snd status]. split; [|done].
  set (e01 := (print _ e1).2). set (e02 := (print _ e2).2).
  assert (same_draws e01 e02 /\ same_clock e01 e02) as H0 by done.
  set (first1 := match preferred_airline preferences with
                 | Some a => ([(preferred_offer a e01).1], (preferred_offer a e01).2)
                 | None => ([], e01)
                 end).
  set (first2 := match preferred_airline preferences with
                 | Some a => ([(preferred_offer a e02).1], (preferred_offer a e02).2)
                 | None => ([], e02)
                 end).
  assert (first1.1 = first2.1 /\ same_draws first1.2 first2.2 /\ same_clock first1.2 first2.2)
    as (Hfirst & Hd1 & Hc1).
  { unfold first1, first2. destruct (preferred_airline preferences) as [a|]; [|by destruct H0].
    destruct (respects_preferred_offer a e01 e02 H0) as (-> & ? & ?). done. }
  destruct (respects_randint 1 2 first1.2 first2.2 (conj Hd1 Hc1)) as (Hn & Hd2 & Hc2).
  rewrite Hfirst, Hn.
  by destruct (respects_standard_offers (N.to_nat (randint 1 2 first2.2).1)
                 (preferred_airline preferences) _ _ (conj Hd2 Hc2)) as (-> & _).
Qed.

Lemma find_flights_ignores_destination_witness :
  (find_flights "Paris" "2025-01-01" (Some ["I love Delta"]) at_midnight).1
  = (find_flights "Rome" "2025-06-30" (Some ["I love Delta"]) at_midnight).1
  /\ status (find_flights "Paris" "2025-01-01" (Some ["I love Delta"]) at_midnight).1
     = "success".
Proof.
  apply (find_flights_ignores_destination "Paris" "2025-01-01" "Rome" "2025-06-30"
           (Some ["I love Delta"]) at_midnight at_midnight);
    split; reflexivity.
Defined.

(** C10, as stated, fails: the same arguments and the same draws, read at
    midnight and at one o'clock, give offers with different times. *)
Lemma same_draws_other_clock :
  same_draws at_midnight at_one
  /\ (find_flights "Paris" "2025-01-01" None at_midnight).1
     <> (find_flights "Paris" "2025-01-01" None at_one).1
  /\ ~ result_fixed_by same_draws.
Proof.
  assert (same_draws at_midnight at_one) as Hsame by (split; reflexivity).
  assert ((find_flights "Paris" "2025-01-01" None at_midnight).1
          <> (find_flights "Paris" "2025-01-01" None at_one).1) as Hdiffer.
  { vm_compute. discriminate. }
  split_and!; [done..|].
  intros Hfixed.
  by destruct (Hfixed "Paris" "2025-01-01" "Paris" "2025-01-01" None _ _ Hsame).
Qed.

(** * Further properties

    ** The store beyond the claims *)

(** X1. A process that starts without a file, or with a file that is not
    JSON, only ever holds stores of the documented shape (users to
    categories to lists of distinct strings): any sequence of [add] calls
    keeps it, on any disk, whether the calls return or raise. *)
Theorem reachable_stores_are_documented (path : string) (w0 : disk) (self : SimpleMemory.t)
    (calls : list (string * string * string)) (w : disk) :
  files w0 !! path = None \/ files w0 !! path = Some Malformed ->
  __init__ path w0 = Ok self ->
  store_ok (memory_store (run_adds calls self w).1) = true.
Proof.
  intros Hfile Hinit. apply run_adds_keeps_store_ok.
  by apply (init_store_ok path w0).
Qed.

Lemma reachable_stores_are_documented_witness :
  store_ok (memory_store
              (run_adds [("Chris", "food", "sushi"); ("Chris", "food", "sushi");
                         ("Dana", "hotel", "quiet")] fresh refusing).1) = true.
Proof.
  apply (reachable_stores_are_documented MEMORY_FILE blank fresh
           [("Chris", "food", "sushi"); ("Chris", "food", "sushi"); ("Dana", "hotel", "quiet")]
           refusing); [left|]; reflexivity.
Defined.

(** X2. Whenever [add] returns, on a store of any shape, it returns
    [True] and the value is in what [search_by_category] then gives for
    the same user and category. *)
Theorem add_then_search_finds (user category value : string)
    (self self' : SimpleMemory.t) (w w' : disk) (r : bool) :
  add user category value self w = (Ok r, self', w') ->
  r = true
  /\ exists items,
       search_by_category user category self' = Ok items
       /\ contains value items = Ok true.
Proof.
  intros Hadd.
  destruct (add_ok_cases _ _ _ _ _ _ _ _ Hadd)
    as [-> [(-> & _ & items & Hsearch & Hin)|(_ & xs & Hsearch)]];
    (split; [done|]).
  - by exists items.
  - exists (JArr (xs ++ [JStr value])). split; [done|]. cbn [contains].
    by rewrite existsb_app; cbn [existsb eq_str]; rewrite String.eqb_refl, orb_true_r.
Qed.

Lemma add_then_search_finds_witness :
  true = true
  /\ exists items,
       search_by_category "Chris" "food" first_add.1.2 = Ok items
       /\ contains "sushi" items = Ok true.
Proof.
  apply (add_then_search_finds "Chris" "food" "sushi" fresh first_add.1.2 blank first_add.2).
  vm_compute. reflexivity.
Defined.

(** The list under a user and a category of a documented store. *)
Lemma search_on_store_ok u c self :
  store_ok (memory_store self) = true ->
  exists store cats xs,
    memory_store self = JObj store
    /\ cats_of u store = Some cats
    /\ items_of c cats = Some xs
    /\ distinct_strings (JArr xs) = true
    /\ search_by_category u c self = Ok (JArr xs).
Proof.
  intros Hok.
  destruct (add_on_store_ok u c "" self Hok)
    as (store & cats & xs & Hs & Hcats & Hxs & _ & Hdist & _).
  exists store, cats, xs. split_and!; [done..|].
  unfold search_by_category, get, cats_of, items_of in *. rewrite Hs.
  destruct (store !! u) as [um|] eqn:Eu.
  - destruct um; simplify_eq/=.
    destruct (cats !! c) as [[]|] eqn:Ec; by simplify_eq/=.
  - injection Hcats as <-. rewrite lookup_empty in *. by simplify_eq/=.
Qed.

(** X3. Insertion order: on a documented store and a disk that takes the
    write, adding a value that is not listed returns [True], puts the value
    at the end of the list, behind the values that were there, in their
    order, and opens the file for writing exactly once. *)
Theorem add_appends_last (user category value : string) (self : SimpleMemory.t)
    (w : disk) (xs : list json) :
  store_ok (memory_store self) = true ->
  accepts_write w = true ->
  search_by_category user category self = Ok (JArr xs) ->
  existsb (eq_str value) xs = false ->
  (add user category value self w).1.1 = Ok true
  /\ search_by_category user category (add user category value self w).1.2
     = Ok (JArr (xs ++ [JStr value]))
  /\ flushes (add user category value self w).2 = S (flushes w).
Proof.
  intros Hok Hw Hsearch Hin.
  destruct (search_on_store_ok user category self Hok)
    as (store & cats & xs' & Hs & Hcats & Hxs & _ & Hsearch').
  rewrite Hsearch in Hsearch'. injection Hsearch' as <-.
  pose proof (add_absent _ _ _ _ w _ _ _ Hs Hcats Hxs Hin) as Hadd. cbv zeta in Hadd.
  set (self' := with_store self _) in Hadd.
  destruct (save_accepted self' w Hw) as (w' & Hsave & _ & Hflushes).
  rewrite Hsave in Hadd. rewrite Hadd. cbn [fst snd]. split_and!; [done| |done].
  unfold self', search_by_category, get. cbn [memory_store with_store].
  by rewrite !lookup_insert_eq.
Qed.

Lemma add_appends_last_witness :
  (add "Chris" "food" "ramen" first_add.1.2 first_add.2).1.1 = Ok true
  /\ search_by_category "Chris" "food" (add "Chris" "food" "ramen" first_add.1.2 first_add.2).1.2
     = Ok (JArr ([JStr "sushi"] ++ [JStr "ramen"]))
  /\ flushes (add "Chris" "food" "ramen" first_add.1.2 first_add.2).2 = S (flushes first_add.2).
Proof.
  apply (add_appends_last "Chris" "food" "ramen" first_add.1.2 first_add.2 [JStr "sushi"]);
    vm_compute; reflexivity.
Defined.

(** X4. No rollback: on a documented store, when the value is not listed
    and the disk refuses the write, [add] raises [OSError] but the value is
    already at the end of the list in memory; when the refusal is at
    [open], every file is as it was. *)
Theorem refused_add_keeps_value (user category value : string) (self : SimpleMemory.t)
    (w : disk) (xs : list json) :
  store_ok (memory_store self) = true ->
  accepts_write w = false ->
  search_by_category user category self = Ok (JArr xs) ->
  existsb (eq_str value) xs = false ->
  (add user category value self w).1.1 = Raise OSError
  /\ search_by_category user category (add user category value self w).1.2
     = Ok (JArr (xs ++ [JStr value]))
  /\ (head (outcomes w) = Some (Some OpenFails) ->
      files (add user category value self w).2 = files w).
Proof.
  intros Hok Hw Hsearch Hin.
  destruct (search_on_store_ok user category self Hok)
    as (store & cats & xs' & Hs & Hcats & Hxs & _ & Hsearch').
  rewrite Hsearch in Hsearch'. injection Hsearch' as <-.
  pose proof (add_absent _ _ _ _ w _ _ _ Hs Hcats Hxs Hin) as Hadd. cbv zeta in Hadd.
  set (self' := with_store self _) in Hadd.
  assert (search_by_category user category self' = Ok (JArr (xs ++ [JStr value]))) as Hnew.
  { unfold self', search_by_category, get. cbn [memory_store with_store].
    by rewrite !lookup_insert_eq. }
  rewrite Hadd. unfold _save_to_file, accepts_write in *.
  destruct (outcomes w) as [|[[]|] later]; try discriminate; cbn [fst snd];
    (split_and!; [done..|]); [done|discriminate].
Qed.

Lemma refused_add_keeps_value_witness :
  refused_add.1.1 = Raise OSError
  /\ search_by_category "Chris" "food" refused_add.1.2 = Ok (JArr ([] ++ [JStr "sushi"]))
  /\ (head (outcomes refusing) = Some (Some OpenFails) -> files refused_add.2 = files refusing).
Proof.
  apply (refused_add_keeps_value "Chris" "food" "sushi" fresh refusing []); reflexivity.
Defined.

(** X5. The whole store is written: after a call of [add] that returned
    and did open the file, a restart builds exactly the store that is in
    memory, whatever the file held before. *)
Theorem inserting_add_persists_store (user category value : string)
    (self self' : SimpleMemory.t) (w w' : disk) :
  add user category value self w = (Ok true, self', w') ->
  flushes w' <> flushes w ->
  __init__ (filepath self') w' = Ok self'.
Proof.
  intros Hadd Hwrote.
  destruct (add_ok_cases _ _ _ _ _ _ _ _ Hadd) as [_ [(_ & -> & _)|(Hsave & _)]]; [done|].
  by apply restart_in_sync, (saved_in_sync self' w).
Qed.

Lemma inserting_add_persists_store_witness :
  __init__ (filepath (add "Chris" "food" "ramen" refused_add.1.2 refused_add.2).1.2)
    (add "Chris" "food" "ramen" refused_add.1.2 refused_add.2).2
  = Ok (add "Chris" "food" "ramen" refused_add.1.2 refused_add.2).1.2.
Proof.
  apply (inserting_add_persists_store "Chris" "food" "ramen" refused_add.1.2 _
           refused_add.2 _); vm_compute; [reflexivity|discriminate].
Defined.

(** X6. [add] writes to its own file only: every other path of the disk
    holds what it held, and the store keeps its path. *)
Theorem add_touches_one_file (user category value path : string)
    (self : SimpleMemory.t) (w : disk) :
  path <> filepath self ->
  files (add user category value self w).2 !! path = files w !! path
  /\ filepath (add user category value self w).1.2 = filepath self.
Proof.
  intros Hpath.
  assert (filepath (add user category value self w).1.2 = filepath self) as Hsame.
  { destruct (add_store user category value self w)
      as [->|(store & cats & cats' & _ & _ & -> & _)]; done. }
  split; [|done].
  destruct (add_flushes user category value self w) as [[_ ->]|(self' & Hself & -> & _)];
    [done|].
  rewrite Hself in Hsame. unfold _save_to_file.
  destruct (outcomes w) as [|[[]|] later]; cbn [snd files]; try done;
    rewrite lookup_insert_ne; congruence.
Qed.

Lemma add_touches_one_file_witness :
  files first_add.2 !! "notes.txt" = files blank !! "notes.txt"
  /\ filepath first_add.1.2 = filepath fresh.
Proof.
  apply (add_touches_one_file "Chris" "food" "sushi" "notes.txt" fresh blank).
  vm_compute. discriminate.
Defined.

(** X7. On a documented store [add] returns [True] or raises [OSError],
    and it raises only when its value was not listed and the disk refuses
    the write: no [AttributeError], [TypeError] or [KeyError]. *)
Theorem add_raises_only_OSError (user category value : string)
    (self : SimpleMemory.t) (w : disk) :
  store_ok (memory_store self) = true ->
  (add user category value self w).1.1 = Ok true
  \/ (add user category value self w).1.1 = Raise OSError
     /\ accepts_write w = false
     /\ exists xs, search_by_category user category self = Ok (JArr xs)
                   /\ existsb (eq_str value) xs = false.
Proof.
  intros Hok.
  destruct (search_on_store_ok user category self Hok)
    as (store & cats & xs & Hs & Hcats & Hxs & _ & Hsearch).
  destruct (add_on_store_ok user category value self Hok)
    as (store' & cats' & xs' & Hs' & Hcats' & Hxs' & _ & _ & Hfound).
  rewrite Hs in Hs'. injection Hs' as <-.
  rewrite Hcats in Hcats'. injection Hcats' as <-.
  rewrite Hxs in Hxs'. injection Hxs' as <-.
  destruct (existsb (eq_str value) xs) eqn:Hin.
  - destruct (Hfound eq_refl) as [Hu Hc]. left.
    by rewrite (add_present _ _ _ _ w _ _ _ Hs Hu Hc Hin).
  - pose proof (add_absent _ _ _ _ w _ _ _ Hs Hcats Hxs Hin) as Hadd. cbv zeta in Hadd.
    rewrite Hadd. unfold _save_to_file, accepts_write.
    destruct (outcomes w) as [|[[]|] later]; cbn [fst]; eauto 6.
Qed.

Lemma add_raises_only_OSError_witness :
  refused_add.1.1 = Ok true
  \/ refused_add.1.1 = Raise OSError
     /\ accepts_write refusing = false
     /\ exists xs, search_by_category "Chris" "food" fresh = Ok (JArr xs)
                   /\ existsb (eq_str "sushi") xs = false.
Proof. apply (add_raises_only_OSError "Chris" "food" "sushi" fresh refusing). reflexivity. Defined.

(** X8. The file is rewritten in place: when the dump of an [add] breaks
    off, the call raises [OSError] and a restart builds the empty store,
    whatever the file held before the call. *)
Theorem broken_write_loses_history (user category value : string)
    (self : SimpleMemory.t) (w : disk) (later : list (option fault)) (xs : list json) :
  store_ok (memory_store self) = true ->
  outcomes w = Some WriteFails :: later ->
  search_by_category user category self = Ok (JArr xs) ->
  existsb (eq_str value) xs = false ->
  (add user category value self w).1.1 = Raise OSError
  /\ __init__ (filepath self) (add user category value self w).2
     = Ok (Make (filepath self) (JObj ∅)).
Proof.
  intros Hok Hout Hsearch Hin.
  destruct (search_on_store_ok user category self Hok)
    as (store & cats & xs' & Hs & Hcats & Hxs & _ & Hsearch').
  rewrite Hsearch in Hsearch'. injection Hsearch' as <-.
  pose proof (add_absent _ _ _ _ w _ _ _ Hs Hcats Hxs Hin) as Hadd. cbv zeta in Hadd.
  rewrite Hadd. unfold _save_to_file. rewrite Hout. cbn [fst snd].
  split; [done|]. unfold __init__, _load_from_file. cbn [files filepath with_store].
  by rewrite lookup_insert_eq.
Qed.

Lemma broken_write_loses_history_witness :
  (add "Chris" "food" "ramen" first_add.1.2
     (Disk (files first_add.2) [Some WriteFails] 1)).1.1 = Raise OSError
  /\ __init__ (filepath first_add.1.2)
       (add "Chris" "food" "ramen" first_add.1.2
          (Disk (files first_add.2) [Some WriteFails] 1)).2
     = Ok (Make (filepath first_add.1.2) (JObj ∅)).
Proof.
  apply (broken_write_loses_history "Chris" "food" "ramen" first_add.1.2
           (Disk (files first_add.2) [Some WriteFails] 1) [] [JStr "sushi"]);
    vm_compute; reflexivity.
Defined.

(** ** The tools and the turn beyond the claims *)

(** X9. A file that holds JSON other than an object is loaded as it is,
    and from then on both memory tools raise [AttributeError] for every
    argument, leaving memory and disk as they are. *)
Theorem non_object_file_breaks_tools (path category preference : string)
    (w0 w : disk) (v : json) (self : SimpleMemory.t) (bound1 bound2 : option string) :
  files w0 !! path = Some (Wellformed v) ->
  (forall m, v <> JObj m) ->
  __init__ path w0 = Ok self ->
  save_user_preference category preference (Process self bound1 bound2) w
  = (Raise AttributeError, Process self bound1 bound2, w)
  /\ retrieve_user_preferences category (Process self bound1 bound2) = Raise AttributeError.
Proof.
  intros Hfile Hshape. unfold __init__, _load_from_file. rewrite Hfile. intros [= <-].
  unfold save_user_preference, retrieve_user_preferences, add, search_by_category.
  cbn [persistent_data memory_store save_user_preference_user_id
       retrieve_user_preferences_user_id].
  destruct v; try done. by destruct (Hshape m).
Qed.

Lemma non_object_file_breaks_tools_witness :
  save_user_preference "food" "ramen"
    (Process (Make MEMORY_FILE (JArr [JStr "sushi"])) None None) blank
  = (Raise AttributeError, Process (Make MEMORY_FILE (JArr [JStr "sushi"])) None None, blank)
  /\ retrieve_user_preferences "food"
       (Process (Make MEMORY_FILE (JArr [JStr "sushi"])) None None)
     = Raise AttributeError.
Proof.
  apply (non_object_file_breaks_tools MEMORY_FILE "food" "ramen" holds_a_list blank
           (JArr [JStr "sushi"]) (Make MEMORY_FILE (JArr [JStr "sushi"])) None None);
    [reflexivity|discriminate|reflexivity].
Defined.

(** X10. What one tool saves the other retrieves: when both tools resolve
    to the same user and [save_user_preference] returns, it reports
    "success", and [retrieve_user_preferences] for the same category then
    reports "success" with preferences that hold the value and with their
    length as count. *)
Theorem saved_preference_is_retrieved (category preference user_id : string)
    (p p' : process) (w w' : disk) (r : tool_result) :
  acts_for user_id p ->
  save_user_preference category preference p w = (Ok r, p', w') ->
  status r = "success"
  /\ exists items n,
       retrieve_user_preferences category p' = Ok (Retrieved "success" items n)
       /\ contains preference items = Ok true
       /\ len items = Ok n.
Proof.
  intros [Hsave Hretrieve]. unfold save_user_preference, retrieve_user_preferences.
  rewrite Hsave.
  destruct (add user_id category preference (persistent_data p) w) as [[[b|e] self'] w1]
    eqn:Hadd; intros [= <- <- <-].
  split; [done|].
  destruct (add_ok_cases _ _ _ _ _ _ _ _ Hadd)
    as [_ [(-> & _ & items & Hsearch & Hin)|(_ & xs & Hsearch)]];
    cbn [persistent_data retrieve_user_preferences_user_id]; rewrite Hretrieve, Hsearch.
  - destruct items; try discriminate; cbn [len]; eauto.
  - cbn [len]. eexists _, _. split_and!; [done| |done]. cbn [contains].
    by rewrite existsb_app; cbn [existsb eq_str]; rewrite String.eqb_refl, orb_true_r.
Qed.

Lemma saved_preference_is_retrieved_witness :
  status (Saved "success" "Preference saved in category 'food'.") = "success"
  /\ exists items n,
       retrieve_user_preferences "food" (Process first_add.1.2 None None)
       = Ok (Retrieved "success" items n)
       /\ contains "sushi" items = Ok true
       /\ len items = Ok n.
Proof.
  apply (saved_preference_is_retrieved "food" "sushi" "Chris" started _ blank first_add.2 _);
    [split; reflexivity|vm_compute; reflexivity].
Defined.

(** X11. On a documented store [retrieve_user_preferences] does not
    raise: it reports "success" with a list of distinct strings and the
    number of its elements. *)
Theorem retrieve_counts_the_list (category : string) (p : process) :
  store_ok (memory_store (persistent_data p)) = true ->
  exists ss,
    retrieve_user_preferences category p
    = Ok (Retrieved "success" (JArr (JStr <$> ss)) (length ss))
    /\ NoDup ss.
Proof.
  intros Hok. unfold retrieve_user_preferences.
  destruct (search_on_store_ok (getattr_user_id (retrieve_user_preferences_user_id p))
              category (persistent_data p) Hok)
    as (store & cats & xs & _ & _ & _ & Hdist & ->).
  unfold distinct_strings in Hdist.
  destruct (mapM as_str xs) as [ss|] eqn:E; [|discriminate].
  apply mapM_as_str in E as ->. apply bool_decide_eq_true in Hdist.
  exists ss. split; [|done]. cbn [len]. by rewrite length_fmap.
Qed.

Lemma retrieve_counts_the_list_witness :
  exists ss,
    retrieve_user_preferences "food" (Process first_add.1.2 None None)
    = Ok (Retrieved "success" (JArr (JStr <$> ss)) (length ss))
    /\ NoDup ss.
Proof.
  apply (retrieve_counts_the_list "food" (Process first_add.1.2 None None)).
  vm_compute. reflexivity.
Defined.

(** X12. A turn binds both tools to its user: after [call_agent_async]
    for [user_id], whatever the tools were bound to before,
    [save_user_preference] is [add] for [user_id] on the store the turn
    found (same store and disk afterwards, success for [True], the same
    exception otherwise), and [retrieve_user_preferences] searches for
    [user_id]. *)
Theorem turn_binds_both_tools (events : list Event)
    (query user_id session_id category preference : string) (p : process) (w : disk) :
  let bound := (call_agent_async events query user_id session_id p).2 in
  let saved := save_user_preference category preference bound w in
  let added := add user_id category preference (persistent_data p) w in
  acts_for user_id bound
  /\ persistent_data saved.1.2 = added.1.2
  /\ saved.2 = added.2
  /\ (forall b, added.1.1 = Ok b -> exists message, saved.1.1 = Ok (Saved "success" message))
  /\ (forall e, added.1.1 = Raise e -> saved.1.1 = Raise e)
  /\ acts_for user_id saved.1.2.
Proof.
  cbn zeta. unfold call_agent_async, save_user_preference, acts_for.
  cbn [fst snd persistent_data save_user_preference_user_id
       retrieve_user_preferences_user_id getattr_user_id].
  destruct (add user_id category preference (persistent_data p) w) as [[[b|e] self'] w'];
    cbn [fst snd persistent_data save_user_preference_user_id
         retrieve_user_preferences_user_id getattr_user_id];
    split_and!; try done; eauto.
  by intros e0 [= ->].
Qed.

(** X13. The first final response wins: when the events of a turn start
    with events that are not final or carry no part, followed by a final
    event with parts, [call_agent_async] returns the text of the first
    part of that event, whatever events would follow. *)
Theorem first_final_response_wins (before later : list Event) (event : Event)
    (c : Content) (part : Part) (rest : list Part)
    (query user_id session_id : string) (p : process) :
  Forall (fun skipped => carries_final_response skipped = false) before ->
  is_final_response event = true ->
  content event = Some c ->
  parts c = Some (part :: rest) ->
  (call_agent_async (before ++ event :: later) query user_id session_id p).1 = text part.
Proof.
  intros Hbefore Hfinal Hcontent Hparts. cbn [call_agent_async fst].
  by apply (first_final_response_found before event later c part rest).
Qed.

Lemma first_final_response_wins_witness :
  (call_agent_async
     ([ {| is_final_response := false;
           content := Some {| parts := Some [ {| text := Some "thinking" |} ] |} |};
        {| is_final_response := true; content := Some {| parts := Some [] |} |} ]
      ++ {| is_final_response := true;
            content := Some {| parts := Some [ {| text := Some "Here are your flights" |};
                                               {| text := Some "second part" |} ] |} |}
      :: [ {| is_final_response := true;
              content := Some {| parts := Some [ {| text := Some "too late" |} ] |} |} ])
     "Flights to Paris" "Chris" "session_001" started).1
  = text {| text := Some "Here are your flights" |}.
Proof.
  apply (first_final_response_wins _ _ _
           {| parts := Some [ {| text := Some "Here are your flights" |};
                              {| text := Some "second part" |} ] |}
           {| text := Some "Here are your flights" |}
           [ {| text := Some "second part" |} ]);
    [repeat constructor|reflexivity..].
Defined.

(** ** The chat loop *)

(** Over a runner that only yields events, the loop with the runner at
    work is the loop over the list of its events. *)
Lemma consume_yields events w :
  consume (yields events) w = (Ok (first_final_response events), w).
Proof.
  induction events as [|event later IH]; cbn [yields consume first_final_response]; [done|].
  destruct (is_final_response event); [|done].
  destruct (content event) as [c|]; [|done].
  by destruct (parts c) as [[|part more]|].
Qed.

Lemma call_agent_async_run_yields events query user_id session_id w :
  call_agent_async_run (yields events) query user_id session_id w
  = (Ok (call_agent_async events query user_id session_id (proc w)).1,
     {| proc := (call_agent_async events query user_id session_id (proc w)).2;
        on_disk := on_disk w; around := around w |}).
Proof. unfold call_agent_async_run. by rewrite consume_yields. Qed.

Lemma save_user_preference_process category preference p w :
  (save_user_preference category preference p w).1.2
  = {| persistent_data :=
         (SimpleMemory.add (getattr_user_id (save_user_preference_user_id p))
            category preference (persistent_data p) w).1.2;
       save_user_preference_user_id := save_user_preference_user_id p;
       retrieve_user_preferences_user_id := retrieve_user_preferences_user_id p |}.
Proof.
  unfold save_user_preference.
  by destruct (SimpleMemory.add _ category preference (persistent_data p) w) as [[[ok|e] self'] w'].
Qed.

(** Whatever the runner does in a turn, the two attributes stay as they
    are and only the memory of the user the save tool resolves to can
    change. *)
Lemma consume_frame g :
  forall w,
    save_user_preference_user_id (proc (consume g w).2) = save_user_preference_user_id (proc w)
    /\ retrieve_user_preferences_user_id (proc (consume g w).2)
       = retrieve_user_preferences_user_id (proc w)
    /\ keeps_others (getattr_user_id (save_user_preference_user_id (proc w)))
         (proc w) (proc (consume g w).2).
Proof.
  induction g as [|event next IH|e|category preference next IH|category next IH
                  |destination departure_date preferences next IH]; intros w; cbn [consume].
  - by split_and!.
  - destruct (is_final_response event); [|apply IH].
    destruct (content event) as [c|]; [|apply IH].
    destruct (parts c) as [[|part more]|]; try apply IH. by split_and!.
  - by split_and!.
  - pose proof (save_user_preference_process category preference (proc w) (on_disk w)) as Hp.
    destruct (save_user_preference category preference (proc w) (on_disk w)) as [[r p'] d'].
    cbn [fst snd] in Hp. subst p'.
    match goal with
    | |- context [consume (next r) ?w'] => destruct (IH r w') as (Hsave & Hretrieve & Hothers)
    end.
    cbn [proc save_user_preference_user_id retrieve_user_preferences_user_id persistent_data]
      in Hsave, Hretrieve, Hothers.
    split_and!; [done|done|].
    intros user cat Huser. rewrite (Hothers user cat Huser).
    cbn [persistent_data]. apply add_frame. intros [= Hu _]. by apply Huser.
  - apply IH.
  - destruct (find_flights destination departure_date preferences (around w)) as [r e'].
    match goal with
    | |- context [consume (next r) ?w'] => destruct (IH r w') as (Hsave & Hretrieve & Hothers)
    end.
    by split_and!.
Qed.

(** A turn of the chat binds both tools to [user_id] and keeps what the
    other users have in memory. *)
Lemma call_agent_async_run_frame g query user_id session_id w :
  acts_for user_id (proc (call_agent_async_run g query user_id session_id w).2)
  /\ keeps_others user_id (proc w) (proc (call_agent_async_run g query user_id session_id w).2).
Proof.
  unfold call_agent_async_run.
  match goal with
  | |- context [consume g ?w'] => destruct (consume_frame g w') as (Hsave & Hretrieve & Hothers)
  end.
  cbn [proc save_user_preference_user_id retrieve_user_preferences_user_id persistent_data
       getattr_user_id] in Hsave, Hretrieve, Hothers.
  split; [|done]. unfold acts_for. by rewrite Hsave, Hretrieve.
Qed.

Lemma chat_frame {R : Type} (run_async : R -> string -> string -> string -> generator * R)
    (stdin : list string) :
  forall runner w,
    keeps_others USER_ID (proc w) (proc (leaves (interactive_chat run_async stdin runner w)))
    /\ (acts_for USER_ID (proc w) ->
        acts_for USER_ID (proc (leaves (interactive_chat run_async stdin runner w)))).
Proof.
  induction stdin as [|line stdin IH]; intros runner w; [by split|].
  cbn [interactive_chat]. destruct (quits line); [by split|].
  destruct (run_async runner USER_ID SESSION_ID line) as [g runner'].
  destruct (call_agent_async_run_frame g line USER_ID SESSION_ID w) as [Hacts Hothers].
  destruct (call_agent_async_run g line USER_ID SESSION_ID w) as [[response|e] w'];
    cbn [snd leaves] in *; [|by split].
  destruct (IH runner' w') as [Hkept Hbound]. split; [|by intros _; apply Hbound].
  intros user category Huser. by rewrite (Hkept user category Huser), (Hothers user category Huser).
Qed.

(** X14. The chat stops at the first line that is "quit" or "exit" in any
    letter case, unless a turn before it raises. When every turn returns it
    ends with the goodbye, the turns it ran are the lines before that one,
    in their order, and the lines after it are not read. Otherwise it ends
    with what the first failing turn raised: the turns that returned are
    the lines before the failing one, and neither the lines after it nor
    the quit line are read. It holds for every runner, whatever it calls
    or raises. *)
Theorem chat_stops_at_quit {R : Type}
    (run_async : R -> string -> string -> string -> generator * R)
    (before after : list string) (stop : string) (runner : R) (w : world) :
  Forall (fun line => quits line = false) before ->
  quits stop = true ->
  let c := interactive_chat run_async (before ++ stop :: after) runner w in
  (ending c = Goodbye /\ fst <$> turns c = before /\ unread c = after)
  \/ (exists e ran line rest,
        before = (ran ++ line :: rest)%list
        /\ ending c = Raised e
        /\ fst <$> turns c = ran
        /\ unread c = (rest ++ stop :: after)%list
        /\ turn_raises run_async line e (leaves c)).
Proof.
  intros Hbefore Hstop. cbv zeta. revert runner w.
  induction Hbefore as [|line before Hline _ IH]; intros runner w.
  - left. cbn [app interactive_chat]. by rewrite Hstop.
  - cbn [app interactive_chat]. rewrite Hline.
    destruct (run_async runner USER_ID SESSION_ID line) as [g runner'] eqn:Hrun.
    destruct (call_agent_async_run g line USER_ID SESSION_ID w) as [[response|e] w'] eqn:Hturn.
    + destruct (IH runner' w') as [(Hend & Hturns & Hunread)
                                  |(e & ran & failing & rest & -> & Hend & Hturns & Hunread & Hraise)];
        cbn [ending turns unread leaves].
      * left. split_and!; [done| |done]. rewrite fmap_cons. cbn [fst]. by rewrite Hturns.
      * right. exists e, (line :: ran), failing, rest.
        split_and!; [done|done| |done|done]. rewrite fmap_cons. cbn [fst]. by rewrite Hturns.
    + right. exists e, [], line, before. cbn [ending turns unread leaves].
      split_and!; [done..|]. exists runner, w. by rewrite Hrun.
Qed.

Lemma chat_stops_at_quit_witness :
  let c := interactive_chat echo (["Hi"; "Flights to Paris"] ++ "Quit" :: ["never read"])
             tt (World started blank at_midnight) in
  (ending c = Goodbye /\ fst <$> turns c = ["Hi"; "Flights to Paris"]
   /\ unread c = ["never read"])
  \/ (exists e ran line rest,
        ["Hi"; "Flights to Paris"] = (ran ++ line :: rest)%list
        /\ ending c = Raised e
        /\ fst <$> turns c = ran
        /\ unread c = (rest ++ "Quit" :: ["never read"])%list
        /\ turn_raises echo line e (leaves c)).
Proof.
  apply (chat_stops_at_quit echo ["Hi"; "Flights to Paris"] ["never read"] "Quit" tt
           (World started blank at_midnight));
    [repeat constructor|reflexivity].
Defined.

(** X15. When no line of standard input is "quit" or "exit", the chat
    never ends with the goodbye. Either every turn returns: then it runs a
    turn for every line and ends with the [EOFError] of [input]. Or it ends
    with what the first failing turn raised, the turns that returned being
    the lines before the failing one and the lines after it unread. It
    holds for every runner, whatever it calls or raises. *)
Theorem chat_without_quit_raises (R : Type)
    (run_async : R -> string -> string -> string -> generator * R)
    (stdin : list string) (runner : R) (w : world) :
  Forall (fun line => quits line = false) stdin ->
  let c := interactive_chat run_async stdin runner w in
  ending c <> Goodbye
  /\ ((ending c = Raised EOFError /\ fst <$> turns c = stdin /\ unread c = [])
      \/ (exists e ran line rest,
            stdin = (ran ++ line :: rest)%list
            /\ ending c = Raised e
            /\ fst <$> turns c = ran
            /\ unread c = rest
            /\ turn_raises run_async line e (leaves c))).
Proof.
  intros Hstdin. cbv zeta. revert runner w.
  induction Hstdin as [|line stdin Hline _ IH]; intros runner w.
  { split; [done|]. by left. }
  cbn [interactive_chat]. rewrite Hline.
  destruct (run_async runner USER_ID SESSION_ID line) as [g runner'] eqn:Hrun.
  destruct (call_agent_async_run g line USER_ID SESSION_ID w) as [[response|e] w'] eqn:Hturn.
  - destruct (IH runner' w') as [Hnot [(Hend & Hturns & Hunread)
                                      |(e & ran & failing & rest & -> & Hend & Hturns & Hunread & Hraise)]];
      cbn [ending turns unread leaves]; (split; [done|]).
    + left. split_and!; [done| |done]. rewrite fmap_cons. cbn [fst]. by rewrite Hturns.
    + right. exists e, (line :: ran), failing, rest.
      split_and!; [done|done| |done|done]. rewrite fmap_cons. cbn [fst]. by rewrite Hturns.
  - cbn [ending turns unread leaves]. split; [done|].
    right. exists e, [], line, stdin.
    split_and!; [done..|]. exists runner, w. by rewrite Hrun.
Qed.

Lemma chat_without_quit_raises_witness :
  let c := interactive_chat echo ["Hi"; "boom"; "quit now"] tt
             (World started blank at_midnight) in
  ending c <> Goodbye
  /\ ((ending c = Raised EOFError /\ fst <$> turns c = ["Hi"; "boom"; "quit now"]
       /\ unread c = [])
      \/ (exists e ran line rest,
            ["Hi"; "boom"; "quit now"] = (ran ++ line :: rest)%list
            /\ ending c = Raised e
            /\ fst <$> turns c = ran
            /\ unread c = rest
            /\ turn_raises echo line e (leaves c))).
Proof.
  apply (chat_without_quit_raises unit echo ["Hi"; "boom"; "quit now"] tt
           (World started blank at_midnight)).
  repeat constructor.
Defined.

(** X16. The chat only ever acts for the default user, for every runner,
    whatever it calls or raises, and every input. What any user other than
    "Chris" has in memory is after the chat what it was before, in every
    category, however many preferences the runner saved. And when the
    first line read is not "quit" or "exit", or when the tools resolved to
    "Chris" before, both tools resolve to "Chris" after the chat. *)
Theorem chat_acts_for_default_user (R : Type)
    (run_async : R -> string -> string -> string -> generator * R)
    (stdin : list string) (runner : R) (w : world) :
  let c := interactive_chat run_async stdin runner w in
  (forall user category,
      user <> "Chris" ->
      SimpleMemory.search_by_category user category (persistent_data (proc (leaves c)))
      = SimpleMemory.search_by_category user category (persistent_data (proc w)))
  /\ ((exists line rest, stdin = line :: rest /\ quits line = false)
      \/ acts_for "Chris" (proc w) ->
      acts_for "Chris" (proc (leaves c))).
Proof.
  cbv zeta. split; [apply (chat_frame run_async stdin runner w)|].
  intros [(line & rest & -> & Hline)|Hbound];
    [|by apply (chat_frame run_async stdin runner w)].
  cbn [interactive_chat]. rewrite Hline.
  destruct (run_async runner USER_ID SESSION_ID line) as [g runner'].
  destruct (call_agent_async_run_frame g line USER_ID SESSION_ID w) as [Hacts _].
  destruct (call_agent_async_run g line USER_ID SESSION_ID w) as [[response|e] w'];
    cbn [snd leaves] in *; [|done].
  by apply (chat_frame run_async rest runner' w').
Qed.

Lemma chat_acts_for_default_user_witness :
  let w := World (Process dana_add.1.2 (Some "Dana") None) dana_add.2 at_midnight in
  let c := interactive_chat echo ["Window seat"; "boom"; "exit"] tt w in
  SimpleMemory.search_by_category "Dana" "food" (persistent_data (proc (leaves c)))
  = Ok (JArr [JStr "tea"])
  /\ acts_for "Chris" (proc (leaves c))
  /\ SimpleMemory.search_by_category "Chris" "travel_preferences"
       (persistent_data (proc (leaves c)))
     = Ok (JArr [JStr "Window seat"]).
Proof.
  cbv zeta.
  destruct (chat_acts_for_default_user unit echo ["Window seat"; "boom"; "exit"] tt
              (World (Process dana_add.1.2 (Some "Dana") None) dana_add.2 at_midnight))
    as [Hothers Hbound].
  split_and!.
  - rewrite Hothers by done. vm_compute. reflexivity.
  - apply Hbound. left. by exists "Window seat", ["boom"; "exit"].
  - vm_compute. reflexivity.
Defined.

(** ** The flight search beyond the claims *)

Lemma standard_offer_airline preferred e :
  In (airline (standard_offer preferred e).1) all_airlines
  /\ differs preferred (airline (standard_offer preferred e).1) = true.
Proof.
  unfold standard_offer. run_gen. cbn [fst airline].
  pose proof (choice_in _ e (others_remain preferred)) as Hin.
  by apply filter_In in Hin.
Qed.

Lemma standard_offers_airlines n preferred e :
  Forall (fun o => In (airline o) all_airlines
                   /\ differs preferred (airline o) = true
                   /\ matching o = false)
         (standard_offers n preferred e).1.
Proof.
  revert e. induction n as [|n IH]; intros e; [by constructor|].
  rewrite standard_offers_S. constructor; [|apply IH].
  destruct (standard_offer_airline preferred e) as [Hin Hdiffers].
  split_and!; [done..|]. unfold matching. by rewrite standard_offer_marked.
Qed.

(** X17. Every offer is for an airline of the catalogue, and the offers
    that do not carry the note of a match are for airlines other than the
    preferred one. *)
Theorem standard_offers_avoid_preferred (destination departure_date : string)
    (preferences : option (list string)) (e : env) :
  Forall (fun o => In (airline o) all_airlines
                   /\ (matching o = false ->
                       preferred_airline preferences <> Some (airline o)))
         (flights (find_flights destination departure_date preferences e).1).
Proof.
  rewrite find_flights_run. cbn [fst flights].
  set (e0 := (print _ e).2).
  assert (forall n e1,
             Forall (fun o => In (airline o) all_airlines
                              /\ (matching o = false ->
                                  preferred_airline preferences <> Some (airline o)))
                    (standard_offers n (preferred_airline preferences) e1).1) as Hothers.
  { intros n e1. eapply Forall_impl; [apply standard_offers_airlines|].
    intros o (Hin & Hdiffers & _). split; [done|]. intros _ Hpreferred.
    rewrite Hpreferred in Hdiffers. cbn [differs] in Hdiffers.
    by rewrite String.eqb_refl in Hdiffers. }
  destruct (preferred_airline preferences) as [a|] eqn:Epreferred; cbn [fst snd app].
  - constructor; [|apply Hothers].
    destruct (preferred_offer_marked a e0) as [-> Hnotes]. split.
    + destruct preferences as [prefs|]; [|discriminate].
      by apply (scan_in_catalogue prefs).
    + unfold matching. rewrite Hnotes. by rewrite String.eqb_refl.
  - apply Hothers.
Qed.

(** X18. At most one offer carries the note of a match: exactly one when
    an airline is preferred, none otherwise, and never an offer behind the
    first. *)
Theorem one_matching_offer (destination departure_date : string)
    (preferences : option (list string)) (e : env) :
  let found := flights (find_flights destination departure_date preferences e).1 in
  length (List.filter matching found)
  = match preferred_airline preferences with Some _ => 1 | None => 0 end
  /\ Forall (fun o => matching o = false) (tail found).
Proof.
  cbv zeta. rewrite find_flights_run. cbn [fst flights].
  set (e0 := (print _ e).2).
  assert (forall n e1,
             Forall (fun o => matching o = false)
                    (standard_offers n (preferred_airline preferences) e1).1
             /\ List.filter matching
                  (standard_offers n (preferred_airline preferences) e1).1 = []) as Hothers.
  { intros n e1.
    assert (Forall (fun o => matching o = false)
                   (standard_offers n (preferred_airline preferences) e1).1) as Hall.
    { eapply Forall_impl; [apply standard_offers_airlines|]. by intros o (_ & _ & ?). }
    split; [done|]. induction Hall as [|o os Ho _ IH]; [done|].
    cbn [List.filter]. by rewrite Ho. }
  destruct (preferred_airline preferences) as [a|]; cbn [fst snd app tail].
  - destruct (Hothers (N.to_nat (randint 1 2 (preferred_offer a e0).2).1)
                (randint 1 2 (preferred_offer a e0).2).2) as [Hall Hnone].
    split; [|done]. cbn [List.filter]. unfold matching at 1.
    destruct (preferred_offer_marked a e0) as [_ ->]. rewrite String.eqb_refl.
    cbn [length]. by rewrite Hnone.
  - destruct (Hothers (N.to_nat (randint 1 2 e0).1) (randint 1 2 e0).2) as [Hall Hnone].
    split; [by rewrite Hnone|]. by apply Forall_tail.
Qed.

Lemma preferred_offer_uses a e :
  drawn (preferred_offer a e).2 = 4 + drawn e
  /\ read (preferred_offer a e).2 = 2 + read e
  /\ stdout (preferred_offer a e).2 = stdout e
  /\ random (preferred_offer a e).2 = random e
  /\ clock (preferred_offer a e).2 = clock e.
Proof. unfold preferred_offer. run_gen. by split_and!. Qed.

Lemma standard_offers_use n preferred e :
  drawn (standard_offers n preferred e).2 = 5 * n + drawn e
  /\ read (standard_offers n preferred e).2 = 2 * n + read e
  /\ stdout (standard_offers n preferred e).2 = stdout e
  /\ random (standard_offers n preferred e).2 = random e
  /\ clock (standard_offers n preferred e).2 = clock e.
Proof.
  revert e. induction n as [|n IH]; intros e; [by split_and!|].
  rewrite standard_offers_S. cbn [snd].
  destruct (IH (standard_offer preferred e).2) as (-> & -> & -> & -> & ->).
  unfold standard_offer. run_gen. cbn [snd].
  split_and!; [|..|reflexivity|reflexivity|reflexivity].
  - change (5 * n + (5 + drawn e) = 5 * S n + drawn e). lia.
  - change (2 * n + (2 + read e) = 2 * S n + read e). lia.
Qed.

(** X19. What a call uses up: two clock readings for every offer it
    returns, five random draws for every offer it returns and one more when
    no airline is preferred, and one line on standard output, that of its
    arguments; the sources of draws and readings themselves are untouched. *)
Theorem find_flights_uses (destination departure_date : string)
    (preferences : option (list string)) (e : env) :
  let r := find_flights destination departure_date preferences e in
  let k := length (flights r.1) in
  read r.2 = 2 * k + read e
  /\ drawn r.2
     = 5 * k + match preferred_airline preferences with Some _ => 0 | None => 1 end
       + drawn e
  /\ stdout r.2
     = (stdout e ++ [FindFlightsCalled destination departure_date preferences])%list
  /\ random r.2 = random e
  /\ clock r.2 = clock e.
Proof.
  cbv zeta. rewrite find_flights_run. cbn [fst snd flights].
  set (e0 := (print _ e).2).
  destruct (preferred_airline preferences) as [a|]; cbn [fst snd app length].
  - destruct (standard_offers_use (N.to_nat (randint 1 2 (preferred_offer a e0).2).1) (Some a)
                (randint 1 2 (preferred_offer a e0).2).2) as (-> & -> & -> & -> & ->).
    rewrite standard_offers_length.
    change (drawn (randint 1 2 (preferred_offer a e0).2).2)
      with (S (drawn (preferred_offer a e0).2)).
    change (read (randint 1 2 (preferred_offer a e0).2).2) with (read (preferred_offer a e0).2).
    change (stdout (randint 1 2 (preferred_offer a e0).2).2)
      with (stdout (preferred_offer a e0).2).
    change (random (randint 1 2 (preferred_offer a e0).2).2)
      with (random (preferred_offer a e0).2).
    change (clock (randint 1 2 (preferred_offer a e0).2).2) with (clock (preferred_offer a e0).2).
    destruct (preferred_offer_uses a e0) as (-> & -> & -> & -> & ->).
    change (drawn e0) with (drawn e). change (read e0) with (read e).
    split_and!; [lia|lia|reflexivity..].
  - destruct (standard_offers_use (N.to_nat (randint 1 2 e0).1) None (randint 1 2 e0).2)
      as (-> & -> & -> & -> & ->).
    rewrite standard_offers_length.
    change (drawn (randint 1 2 e0).2) with (S (drawn e)).
    change (read (randint 1 2 e0).2) with (read e).
    split_and!; [lia|lia|reflexivity..].
Qed.

(** X20. Earlier preferences win: the airline preferred for a list of
    preferences followed by another is the one preferred for the first
    list when there is one, and the one preferred for the second list
    otherwise. *)
Theorem earlier_preferences_win (first second : list string) :
  preferred_airline (Some (first ++ second)%list)
  = match preferred_airline (Some first) with
    | Some a => Some a
    | None => preferred_airline (Some second)
    end.
Proof.
  cbn [preferred_airline]. induction first as [|pref first IH]; [done|].
  cbn [app scan]. by destruct (find (mentions pref) all_airlines).
Qed.

(** *** What it takes for a preference to mention an airline *)

Lemma append_String c x y : String c x ++ y = String c (x ++ y).
Proof. reflexivity. Qed.

Lemma prefix_iff x s : String.prefix x s = true <-> exists y, s = x ++ y.
Proof.
  revert s. induction x as [|c x IH]; intros s.
  - destruct s; (split; [intros _; by eexists|done]).
  - destruct s as [|d s]; cbn [String.prefix].
    + split; [discriminate|]. by intros [y Hy].
    + destruct (ascii_dec c d) as [->|Hne].
      * rewrite IH. split; intros [y Hy]; exists y; rewrite append_String in *; congruence.
      * split; [discriminate|]. intros [y Hy]. rewrite append_String in Hy. congruence.
Qed.

Lemma str_in_unfold x s :
  str_in x s
  = String.prefix x s || match s with EmptyString => false | String _ rest => str_in x rest end.
Proof. by destruct s. Qed.

Lemma str_in_iff x s : str_in x s = true <-> exists a b, s = a ++ x ++ b.
Proof.
  split.
  - induction s as [|c s IH]; rewrite str_in_unfold, orb_true_iff.
    + intros [Hp|]; [|discriminate]. apply prefix_iff in Hp as [y Hy]. by exists "", y.
    + intros [Hp|Hin].
      * apply prefix_iff in Hp as [y Hy]. by exists "", y.
      * destruct (IH Hin) as (a & b & ->). by exists (String c a), b.
  - intros (a & b & ->). induction a as [|c a IH]; rewrite str_in_unfold, orb_true_iff.
    + left. apply prefix_iff. by exists b.
    + right. exact IH.
Qed.

Lemma lower_app a b : lower (a ++ b) = lower a ++ lower b.
Proof.
  induction a as [|c a IH]; [done|].
  rewrite append_String. cbn [lower]. by rewrite IH, append_String.
Qed.

Lemma lower_app_inv s x y :
  lower s = x ++ y -> exists s1 s2, s = s1 ++ s2 /\ lower s1 = x /\ lower s2 = y.
Proof.
  revert s. induction x as [|c x IH]; intros s Hs.
  - by exists "", s.
  - destruct s as [|d s]; [discriminate|].
    rewrite append_String in Hs. cbn [lower] in Hs.
    injection Hs as Hc Hs. destruct (IH s Hs) as (s1 & s2 & -> & Hs1 & Hs2).
    exists (String d s1), s2. cbn [lower]. by rewrite Hc, Hs1.
Qed.

(** X21. A preference mentions an airline exactly when the name of the
    airline stands somewhere in the preference, each of its letters in
    either case: when the preference is some text, then a text whose
    lower-case form is that of the name, then some text. *)
Theorem mentions_any_letter_case (pref name : string) :
  mentions pref name = true
  <-> exists before written after,
        pref = before ++ written ++ after /\ lower written = lower name.
Proof.
  unfold mentions. rewrite str_in_iff. split.
  - intros (a & b & Hpref).
    apply lower_app_inv in Hpref as (before & rest & -> & <- & Hrest).
    apply lower_app_inv in Hrest as (written & after & -> & Hwritten & <-).
    by exists before, written, after.
  - intros (before & written & after & -> & Hwritten).
    exists (lower before), (lower after). by rewrite !lower_app, Hwritten.
Qed.
